(** * desktop_notifier.base: the notification cache of [DesktopNotifierBase]

    A shallow embedding of [src/desktop_notifier/base.py].  Notification
    objects live in a heap and are referred to by their identity; the
    notifier keeps a bounded [collections.deque] of such references and a
    [dict] from platform identifiers to references.  The public operations
    are state transformers that may raise. *)

From Stdlib Require Import ZArith Lia.
From stdpp Require Import gmap strings list fin_maps.

#[local] Arguments Z.eqb : simpl never.
#[local] Arguments Z.ltb : simpl never.
#[local] Arguments Z.of_nat : simpl never.
#[local] Arguments Z.to_nat : simpl never.

(** ** Python runtime: exceptions, log records, warnings *)

(** The exception classes that matter here.  The first four derive from
    [BaseException] only; every other class derives from [Exception]. *)
Inductive PyExc : Type :=
  | KeyboardInterrupt
  | SystemExit
  | GeneratorExit
  | CancelledError
  | IndexError
  | ValueError
  | KeyError
  | NotImplementedError
  | AuthorisationError
  | OverflowError
  | OtherException (name : string).

(** [isinstance(e, Exception)], the test made by [except Exception:]. *)
Definition isinstance_Exception (e : PyExc) : bool :=
  match e with
  | KeyboardInterrupt | SystemExit | GeneratorExit | CancelledError => false
  | _ => true
  end.

Definition is_ValueError (e : PyExc) : bool :=
  match e with ValueError => true | _ => false end.

Definition is_KeyError (e : PyExc) : bool :=
  match e with KeyError => true | _ => false end.

Inductive result (A : Type) : Type :=
  | Ok (a : A)
  | Raise (e : PyExc).
Arguments Ok {A} a.
Arguments Raise {A} e.

Inductive LogLevel : Type := DEBUG | INFO | WARNING | ERROR.

(** A record handed to [logger]; [exc_info] is the exception being handled
    when [exc_info=True] was passed. *)
Record LogRecord : Type := mkLogRecord {
  levelname : LogLevel;
  log_msg : string;
  exc_info : option PyExc
}.

Inductive WarningCategory : Type := DeprecationWarning | UserWarning.

Record WarningMessage : Type := mkWarning {
  warn_msg : string;
  category : WarningCategory
}.

(** Object identity of a [Notification] instance. *)
Abbreviation ref := nat (only parsing).

(** A callback stored on a record; the core never calls it. *)
Definition callback : Type := nat.

Definition DEFAULT_SOUND : string := "default".

(** ** The data model *)

Inductive Urgency : Type := Critical | Normal | Low.

Record Button : Type := mkButton {
  button_title : string;
  on_pressed : option callback
}.

Record ReplyField : Type := mkReplyField {
  reply_title : string;
  reply_button_title : string;
  on_replied : option callback
}.

Module Notification.

Record t : Type := mk {
  _identifier : string;
  _winrt_identifier : string;
  _macos_identifier : string;
  _dbus_identifier : Z;
  title : string;
  message : string;
  urgency : Urgency;
  icon : option string;
  buttons : list Button;
  reply_field : option ReplyField;
  on_clicked : option callback;
  on_dismissed : option callback;
  attachment : option string;
  sound_file : option string;
  thread : option string;
  timeout : Z
}.

(** [Notification.__init__]: the object built and the warnings issued
    through [warnings.warn] while building it. *)
Definition __init__
    (title : string) (message : string) (urgency : Urgency)
    (icon : option string) (buttons : list Button)
    (reply_field : option ReplyField)
    (on_clicked on_dismissed : option callback)
    (attachment : option string) (sound : bool)
    (thread : option string) (timeout : Z)
    (sound_file : option string) : t * list WarningMessage :=
  let '(sound_file, warned) :=
    if sound
    then (Some DEFAULT_SOUND,
          [mkWarning "Use sound_file=DEFAULT_SOUND instead of sound=True."
                     DeprecationWarning])
    else (sound_file, []) in
  (mk "" "" "" 0%Z title message urgency icon buttons reply_field
      on_clicked on_dismissed attachment sound_file thread timeout,
   warned).

(** The [identifier] property and its setter. *)
Definition identifier (n : t) : string := _identifier n.

Definition set_identifier (nid : string) (n : t) : t :=
  mk nid (_winrt_identifier n) (_macos_identifier n) (_dbus_identifier n)
     (title n) (message n) (urgency n) (icon n) (buttons n) (reply_field n)
     (on_clicked n) (on_dismissed n) (attachment n) (sound_file n)
     (thread n) (timeout n).

End Notification.

(** ** [collections.deque] with an optional [maxlen] *)

Module deque.

Record t : Type := mk {
  items : list ref;          (* leftmost first *)
  maxlen : option nat
}.

(** The largest [Py_ssize_t] (a 64-bit build of CPython). *)
Definition PY_SSIZE_T_MAX : Z := (2 ^ 63 - 1)%Z.

(** [deque([], maxlen)]: [maxlen] is converted to a [Py_ssize_t], which
    raises [OverflowError] when it does not fit; a negative [maxlen] is
    then refused with [ValueError]. *)
Definition new (maxlen : option Z) : result t :=
  match maxlen with
  | None => Ok (mk [] None)
  | Some m =>
      if ((m <? - PY_SSIZE_T_MAX - 1) || (PY_SSIZE_T_MAX <? m))%Z
      then Raise OverflowError
      else if (m <? 0)%Z then Raise ValueError
      else Ok (mk [] (Some (Z.to_nat m)))
  end.

Definition len (d : t) : nat := length (items d).

(** [append]: add on the right; a full deque drops from the left. *)
Definition append (x : ref) (d : t) : t :=
  let l := items d ++ [x] in
  match maxlen d with
  | None => mk l None
  | Some m => mk (drop (length l - m) l) (Some m)
  end.

(** [appendleft]: add on the left; a full deque drops from the right. *)
Definition appendleft (x : ref) (d : t) : t :=
  let l := x :: items d in
  match maxlen d with
  | None => mk l None
  | Some m => mk (take m l) (Some m)
  end.

(** [popleft]: [IndexError] on an empty deque. *)
Definition popleft (d : t) : result (ref * t) :=
  match items d with
  | [] => Raise IndexError
  | x :: l => Ok (x, mk l (maxlen d))
  end.

(** The list without its first occurrence of [x], if there is one. *)
Fixpoint remove_first (x : ref) (l : list ref) : option (list ref) :=
  match l with
  | [] => None
  | y :: l' =>
      if decide (y = x) then Some l'
      else match remove_first x l' with
           | Some r => Some (y :: r)
           | None => None
           end
  end.

(** [remove]: drops the first occurrence; [ValueError] if absent. *)
Definition remove (x : ref) (d : t) : result t :=
  match remove_first x (items d) with
  | Some l => Ok (mk l (maxlen d))
  | None => Raise ValueError
  end.

Definition clear (d : t) : t := mk [] (maxlen d).

End deque.

(** ** The notifier instance and the world it runs in *)

Module DesktopNotifierBase.

Record t : Type := mk {
  app_name : string;
  notification_limit : option Z;
  _current_notifications : deque.t;
  _notification_for_nid : gmap string ref
}.

(** [DesktopNotifierBase.__init__]; [app_name = None] stands for the
    argument left out. *)
Definition __init__ (app_name : option string)
    (notification_limit : option Z) : result t :=
  match deque.new notification_limit with
  | Ok d => Ok (mk (default "Python" app_name) notification_limit d ∅)
  | Raise e => Raise e
  end.

End DesktopNotifierBase.

(** One invocation of a primitive of the platform backend. *)
Inductive PlatformCall : Type :=
  | CallSend (notification : ref) (notification_to_replace : option ref)
  | CallClear (notification : ref)
  | CallClearAll.

Record World : Type := mkWorld {
  heap : gmap ref Notification.t;       (* the Notification objects *)
  self : DesktopNotifierBase.t;         (* the notifier *)
  log : list LogRecord;                 (* what [logger] received *)
  calls : list PlatformCall             (* backend primitives invoked *)
}.

Definition cache (w : World) : deque.t :=
  DesktopNotifierBase._current_notifications (self w).

Definition index (w : World) : gmap string ref :=
  DesktopNotifierBase._notification_for_nid (self w).

Definition limit (w : World) : option Z :=
  DesktopNotifierBase.notification_limit (self w).

Definition set_cache (d : deque.t) (w : World) : World :=
  mkWorld (heap w)
    (DesktopNotifierBase.mk (DesktopNotifierBase.app_name (self w))
       (limit w) d (index w))
    (log w) (calls w).

Definition set_index (m : gmap string ref) (w : World) : World :=
  mkWorld (heap w)
    (DesktopNotifierBase.mk (DesktopNotifierBase.app_name (self w))
       (limit w) (cache w) m)
    (log w) (calls w).

Definition set_heap (h : gmap ref Notification.t) (w : World) : World :=
  mkWorld h (self w) (log w) (calls w).

Arguments cache !w /.
Arguments index !w /.
Arguments limit !w /.
Arguments set_cache d !w /.
Arguments set_index m !w /.
Arguments set_heap h !w /.

(** [notification.identifier] read through the heap. *)
Definition identifier_of (h : gmap ref Notification.t) (n : ref) : string :=
  match h !! n with
  | Some o => Notification.identifier o
  | None => ""
  end.

(** ** Computations that thread the world and may raise *)

Definition M (A : Type) : Type := World -> World * result A.

Definition ret {A} (a : A) : M A := fun w => (w, Ok a).

Definition raise {A} (e : PyExc) : M A := fun w => (w, Raise e).

Definition bind {A B} (c : M A) (k : A -> M B) : M B :=
  fun w =>
    match c w with
    | (w', Ok a) => k a w'
    | (w', Raise e) => (w', Raise e)
    end.

Notation "'let!' x ':=' c 'in' k" := (bind c (fun x => k))
  (at level 10, x name, c at level 100, k at level 200).

Notation "c1 '>>' c2" := (bind c1 (fun _ => c2))
  (at level 100, c2 at level 200, right associativity).

Definition gets {A} (f : World -> A) : M A := fun w => (w, Ok (f w)).

Definition modify (f : World -> World) : M unit := fun w => (f w, Ok tt).

(** [try: body / except <classes>: handler / else: orelse]. *)
Definition try_except_else {A B} (body : M A) (catches : PyExc -> bool)
    (handler : PyExc -> M B) (orelse : A -> M B) : M B :=
  fun w =>
    match body w with
    | (w', Ok a) => orelse a w'
    | (w', Raise e) =>
        if catches e then handler e w' else (w', Raise e)
    end.

(** [try: body / except <classes>: pass]. *)
Definition try_except_pass (body : M unit) (catches : PyExc -> bool) : M unit :=
  try_except_else body catches (fun _ => ret tt) ret.

(** Lift a deque method that may raise to the notifier's deque. *)
Definition on_cache {A} (f : deque.t -> result (A * deque.t)) : M A :=
  fun w =>
    match f (cache w) with
    | Ok (a, d) => (set_cache d w, Ok a)
    | Raise e => (w, Raise e)
    end.

Definition logger_warning (msg : string) (e : PyExc) : M unit :=
  modify (fun w =>
    mkWorld (heap w) (self w) (log w ++ [mkLogRecord WARNING msg (Some e)])
            (calls w)).

Definition record_call (c : PlatformCall) : M unit :=
  modify (fun w => mkWorld (heap w) (self w) (log w) (calls w ++ [c])).

(** ** The platform backend

    [_send], [_clear] and [_clear_all] raise [NotImplementedError] in the
    base class and are overridden by one subclass per platform.  What one
    invocation of a primitive does is given by a reply. *)

(** The reply of [_send]: the identifier it assigned, or what it raised. *)
Inductive Delivery : Type :=
  | Delivered (nid : string)
  | Failed (e : PyExc).

(** The reply of [_clear] and [_clear_all]. *)
Inductive Dismissal : Type :=
  | Dismissed
  | DismissFailed (e : PyExc).

(** Modelled from the spec: the platform implementations of [_send] are
    not part of the base module.  Their contract is
    [deliver(new, evicted) -> identifier | raises]: a delivery stores the
    identifier it assigned in [notification.identifier]; a failed one
    raises and leaves the notification as it was. *)
Definition _send (reply : Delivery) (notification : ref)
    (notification_to_replace : option ref) : M unit :=
  record_call (CallSend notification notification_to_replace) >>
  match reply with
  | Delivered nid =>
      modify (fun w =>
        set_heap (alter (Notification.set_identifier nid) notification (heap w)) w)
  | Failed e => raise e
  end.

(** Modelled from the spec: the platform implementations of [_clear],
    with contract [dismiss(notification) -> raises on unrecoverable
    failure]. *)
Definition _clear (reply : Dismissal) (notification : ref) : M unit :=
  record_call (CallClear notification) >>
  match reply with
  | Dismissed => ret tt
  | DismissFailed e => raise e
  end.

(** Modelled from the spec: the platform implementations of [_clear_all],
    with contract [dismiss_all() -> raises on unrecoverable failure]. *)
Definition _clear_all (reply : Dismissal) : M unit :=
  record_call CallClearAll >>
  match reply with
  | Dismissed => ret tt
  | DismissFailed e => raise e
  end.

(** ** The operations of [DesktopNotifierBase] *)

(** [len(self._current_notifications) == self.notification_limit];
    an [int] never equals [None]. *)
Definition len_eq_limit (w : World) : bool :=
  match limit w with
  | None => false
  | Some l => (Z.of_nat (deque.len (cache w)) =? l)%Z
  end.

Definition send (notification : ref) (reply : Delivery) : M unit :=
  let! at_limit := gets len_eq_limit in
  let! notification_to_replace :=
    (if at_limit : bool
     then let! r := on_cache deque.popleft in ret (Some r)
     else ret None) in
  try_except_else
    (_send reply notification notification_to_replace)
    isinstance_Exception
    (fun e =>
       match notification_to_replace with
       | Some r => modify (fun w => set_cache (deque.appendleft r (cache w)) w)
       | None => ret tt
       end >>
       logger_warning "Notification failed" e)
    (fun _ =>
       modify (fun w => set_cache (deque.append notification (cache w)) w) >>
       let! nid := gets (fun w => identifier_of (heap w) notification) in
       modify (fun w => set_index (<[nid := notification]> (index w)) w)).

(** [self._current_notifications.remove(notification)]. *)
Definition cache_remove (notification : ref) : M unit :=
  on_cache (fun d =>
    match deque.remove notification d with
    | Ok d' => Ok (tt, d')
    | Raise e => Raise e
    end).

(** [self._notification_for_nid.pop(nid)]: [KeyError] on a missing key. *)
Definition index_pop (nid : string) : M unit :=
  fun w =>
    match index w !! nid with
    | Some _ => (set_index (delete nid (index w)) w, Ok tt)
    | None => (w, Raise KeyError)
    end.

Definition _clear_notification_from_cache (notification : ref) : M unit :=
  try_except_pass (cache_remove notification) is_ValueError >>
  let! nid := gets (fun w => identifier_of (heap w) notification) in
  if String.eqb nid ""
  then ret tt
  else try_except_pass (index_pop nid) is_KeyError.

(** The [current_notifications] property: [list(self._current_notifications)]. *)
Definition current_notifications (w : World) : list ref :=
  deque.items (cache w).

Definition clear (notification : ref) (reply : Dismissal) : M unit :=
  let! nid := gets (fun w => identifier_of (heap w) notification) in
  (if String.eqb nid "" then ret tt else _clear reply notification) >>
  _clear_notification_from_cache notification.

Definition clear_all (reply : Dismissal) : M unit :=
  _clear_all reply >>
  modify (fun w => set_cache (deque.clear (cache w)) w) >>
  modify (fun w => set_index ∅ w).

(** ** Runs *)

(** A notifier freshly constructed next to the notification objects [h]. *)
Definition boot (h : gmap ref Notification.t) (app_name : option string)
    (notification_limit : option Z) : result World :=
  match DesktopNotifierBase.__init__ app_name notification_limit with
  | Ok s => Ok (mkWorld h s [] [])
  | Raise e => Raise e
  end.

(** What can happen to a notifier: the three public operations, each with
    the reply of the backend primitive it may invoke, and the backend
    reporting that a notification was closed. *)
Inductive Op : Type :=
  | Send (notification : ref) (reply : Delivery)
  | Clear (notification : ref) (reply : Dismissal)
  | ClearAll (reply : Dismissal)
  | Forget (notification : ref).

Definition step (op : Op) : M unit :=
  match op with
  | Send n reply => send n reply
  | Clear n reply => clear n reply
  | ClearAll reply => clear_all reply
  | Forget n => _clear_notification_from_cache n
  end.

(** Run the operations in order; a caller that gets an exception carries
    on with the notifier as the failed call left it. *)
Fixpoint run (ops : list Op) (w : World) : World :=
  match ops with
  | [] => w
  | op :: ops' => run ops' (fst (step op w))
  end.

(** Runs in which every [send] is delivered: the notifications sent, each
    with the identifier the backend assigned. *)
Definition deliveries (sent : list (ref * string)) : list Op :=
  map (fun p => Send (fst p) (Delivered (snd p))) sent.


(** [op] is a [send] of [n] that the backend delivered. *)
Definition delivers (n : ref) (op : Op) : bool :=
  match op with
  | Send m (Delivered _) => bool_decide (m = n)
  | _ => false
  end.

Definition never_delivered (n : ref) (ops : list Op) : bool :=
  forallb (fun op => negb (delivers n op)) ops.

(** ** What every reachable notifier satisfies *)

(** The deque was built with [maxlen = notification_limit], the limit is
    not negative, and the deque respects its [maxlen]. *)
Definition consistent (w : World) : Prop :=
  deque.maxlen (cache w) = Z.to_nat <$> limit w /\
  (forall l, limit w = Some l -> (0 <= l)%Z) /\
  (forall m, deque.maxlen (cache w) = Some m -> deque.len (cache w) <= m).

(** The notifier after [_clear_notification_from_cache]: the first
    occurrence of the notification is gone from the deque, and so is the
    key of its identifier, when it has one. *)
Definition forgotten (n : ref) (w : World) : World :=
  set_index
    (if String.eqb (identifier_of (heap w) n) "" then index w
     else delete (identifier_of (heap w) n) (index w))
    (set_cache
       (deque.mk (default (current_notifications w)
                          (deque.remove_first n (current_notifications w)))
                 (deque.maxlen (cache w)))
       w).

(** ** Scenarios *)

Definition plain (title : string) : Notification.t :=
  fst (Notification.__init__ title "" Normal None [] None None None None
         false None (-1)%Z None).

Definition A : ref := 0.
Definition B : ref := 1.
Definition C : ref := 2.

Definition three : gmap ref Notification.t :=
  <[C := plain "C"]> (<[B := plain "B"]> (<[A := plain "A"]> ∅)).

(** The notifier that [DesktopNotifierBase(notification_limit=...)]
    returns, next to the three notifications. *)
Definition constructed (notification_limit : option Z)
    (maxlen : option nat) : World :=
  mkWorld three
    (DesktopNotifierBase.mk "Python" notification_limit (deque.mk [] maxlen) ∅)
    [] [].

Definition unbounded : World := constructed None None.
Definition one_slot : World := constructed (Some 1%Z) (Some 1).
Definition two_slots : World := constructed (Some 2%Z) (Some 2).

(** ** Runs of [send] calls and of the bare base class *)

(** A run of [send] calls, each with the reply of the backend. *)
Definition sends (l : list (ref * Delivery)) : list Op :=
  map (fun p => Send (fst p) (snd p)) l.

(** The notifications of a run of [send] calls that were delivered. *)
Fixpoint delivered (l : list (ref * Delivery)) : list ref :=
  match l with
  | [] => []
  | (n, Delivered _) :: l' => n :: delivered l'
  | (_, Failed _) :: l' => delivered l'
  end.

(** What [logger] receives during a run of [send] calls in which every
    failure is caught. *)
Fixpoint warnings_of (l : list (ref * Delivery)) : list LogRecord :=
  match l with
  | [] => []
  | (_, Delivered _) :: l' => warnings_of l'
  | (_, Failed e) :: l' =>
      mkLogRecord WARNING "Notification failed" (Some e) :: warnings_of l'
  end.

(** Every failure of the run is one that [except Exception] matches. *)
Definition failures_caught (l : list (ref * Delivery)) : bool :=
  forallb (fun p => match snd p with
                    | Delivered _ => true
                    | Failed e => isinstance_Exception e
                    end) l.

(** What the caller asks of a notifier. *)
Inductive Request : Type :=
  | ReqSend (notification : ref)
  | ReqClear (notification : ref)
  | ReqClearAll.

(** The requests on an instance of [DesktopNotifierBase] itself, whose
    [_send], [_clear] and [_clear_all] are [raise NotImplementedError()]. *)
Definition on_base_class (r : Request) : Op :=
  match r with
  | ReqSend n => Send n (Failed NotImplementedError)
  | ReqClear n => Clear n (DismissFailed NotImplementedError)
  | ReqClearAll => ClearAll (DismissFailed NotImplementedError)
  end.

(** Every notification object has the empty identifier its constructor
    gave it. *)
Definition all_unsent (h : gmap ref Notification.t) : Prop :=
  map_Forall (fun _ o => Notification.identifier o = "") h.

(** ** Runs that record no notification twice *)

(** [op] would record a notification that the cache already holds: a
    delivered [send] of a notification that is still in the cache. *)
Definition double_records (op : Op) (w : World) : bool :=
  match op with
  | Send n (Delivered _) => bool_decide (n ∈ current_notifications w)
  | _ => false
  end.

(** No operation of the run, started in [w], records a notification that
    the cache holds at that moment. *)
Fixpoint no_double_record (ops : list Op) (w : World) : bool :=
  match ops with
  | [] => true
  | op :: ops' =>
      negb (double_records op w) && no_double_record ops' (fst (step op w))
  end.

(** * Proofs *)

Ltac unfold_ops :=
  unfold send, clear, clear_all, _clear_notification_from_cache,
    cache_remove, index_pop, _send, _clear, _clear_all, try_except_pass,
    try_except_else,
    on_cache, logger_warning, record_call, bind, gets, modify, ret, raise.

Ltac open_world w :=
  let h := fresh "h" in let app := fresh "app" in let lim := fresh "lim" in
  let its := fresh "its" in let ml := fresh "ml" in let idx := fresh "idx" in
  let lg := fresh "lg" in let cs := fresh "cs" in
  destruct w as [h [app lim [its ml] idx] lg cs];
  unfold consistent, len_eq_limit, current_notifications, deque.len,
    deque.popleft, deque.append, deque.appendleft, deque.remove, deque.clear
    in *;
  simpl in *.

(** Case analysis on whatever the code branches on next. *)
Ltac branch :=
  match goal with
  | |- context [match ?x with _ => _ end] =>
      lazymatch x with
      | context [match _ with _ => _ end] => fail
      | _ => destruct x eqn:?
      end
  end; simpl in *.

(** *** Facts about [deque] *)

Lemma remove_first_length x l r :
  deque.remove_first x l = Some r -> length l = S (length r).
Proof.
  revert r. induction l as [|y l IH]; intros r; simpl; [discriminate|].
  destruct (decide (y = x)); [intros [= <-]; reflexivity|].
  destruct (deque.remove_first x l) as [r'|]; [|discriminate].
  intros [= <-]. simpl. f_equal. apply IH. reflexivity.
Qed.

Lemma remove_first_None x l :
  deque.remove_first x l = None <-> x ∉ l.
Proof.
  induction l as [|y l IH]; simpl.
  - split; [intros _; apply not_elem_of_nil | reflexivity].
  - destruct (decide (y = x)) as [->|Hne].
    + split; [discriminate | intros H; destruct H; apply elem_of_cons; left; reflexivity].
    + destruct (deque.remove_first x l) as [r|].
      * split; [discriminate|]. intros H. exfalso.
        assert (Hin : x ∈ l).
        { destruct (decide (x ∈ l)) as [Hin|Hin]; [exact Hin|].
          apply IH in Hin. discriminate. }
        apply H. apply elem_of_cons. right. exact Hin.
      * split; [|reflexivity]. intros _ Hin.
        apply elem_of_cons in Hin as [->|Hin]; [congruence|].
        destruct IH as [IH _]. apply (IH eq_refl). exact Hin.
Qed.

(** Removing the only occurrence leaves none. *)
Lemma remove_first_once x l r :
  count_occ Nat.eq_dec l x <= 1 ->
  deque.remove_first x l = Some r -> x ∉ r.
Proof.
  revert r. induction l as [|y l IH]; intros r Hc; simpl; [discriminate|].
  simpl in Hc. destruct (decide (y = x)) as [->|Hne].
  - intros [= <-]. destruct (Nat.eq_dec x x) as [_|Hx]; [|congruence].
    assert (H0 : count_occ Nat.eq_dec l x = 0) by lia.
    apply count_occ_not_In in H0. intros Hin. apply H0.
    apply list_elem_of_In. exact Hin.
  - destruct (Nat.eq_dec y x) as [Hy|_]; [congruence|].
    destruct (deque.remove_first x l) as [r'|]; [|discriminate].
    intros [= <-] Hin. apply elem_of_cons in Hin as [->|Hin]; [congruence|].
    exact (IH r' Hc eq_refl Hin).
Qed.

(** *** The invariant is established by the constructor and kept by every
    operation *)

Lemma boot_consistent h app lim w0 :
  boot h app lim = Ok w0 -> consistent w0.
Proof.
  unfold boot, DesktopNotifierBase.__init__, deque.new.
  destruct lim as [l|].
  - destruct ((l <? - deque.PY_SSIZE_T_MAX - 1)
              || (deque.PY_SSIZE_T_MAX <? l))%Z; [discriminate|].
    destruct (l <? 0)%Z eqn:Hneg; [discriminate|]. intros [= <-].
    unfold consistent; simpl. apply Z.ltb_ge in Hneg.
    repeat split.
    + intros l0 [= <-]. exact Hneg.
    + intros m _. unfold deque.len; simpl. lia.
  - intros [= <-]. unfold consistent; simpl. repeat split.
    + discriminate.
    + discriminate.
Qed.

Lemma step_consistent op w :
  consistent w -> consistent (fst (step op w)).
Proof.
  destruct op as [n [nid|e]|n [|e]|[|e]|n]; simpl; unfold_ops;
    open_world w; intros (Hm & Hl & Hlen); repeat branch.
  all: split; [assumption|split; [assumption|]]; intros m Hm'.
  all: try (pose proof (Hlen _ Hm')).
  all: repeat match goal with
       | H : deque.remove_first _ _ = Some _ |- _ =>
           apply remove_first_length in H
       end.
  all: rewrite ?length_drop, ?length_take, ?length_app; simpl in *;
       simplify_eq; try lia.
Qed.

Lemma run_consistent ops w :
  consistent w -> consistent (run ops w).
Proof.
  revert w. induction ops as [|op ops IH]; intros w Hw; simpl; [exact Hw|].
  apply IH. apply step_consistent. exact Hw.
Qed.

Lemma reachable_consistent h app lim w0 ops :
  boot h app lim = Ok w0 -> consistent (run ops w0).
Proof. intros H. apply run_consistent. exact (boot_consistent _ _ _ _ H). Qed.

(** ** Failed deliveries *)

(** On a consistent notifier, a [send] that reached the backend and
    whose delivery failed: when [except Exception] matches the exception,
    [send] returns, having put the evicted notification back; when it does
    not, [send] raises the exception and the eviction stands. *)
Lemma send_failed_reached w n e w' r :
  consistent w ->
  send n (Failed e) w = (w', r) ->
  calls w' <> calls w ->
  index w' = index w /\
  if isinstance_Exception e
  then r = Ok tt /\ cache w' = cache w
  else r = Raise e /\
       current_notifications w' =
         if len_eq_limit w then tail (current_notifications w)
         else current_notifications w.
Proof.
  unfold_ops. open_world w. intros (Hm & Hl & Hlen).
  repeat branch; intros [= <- <-]; simpl; intros Hcalls;
    try congruence; (split; [reflexivity|]); try (split; reflexivity).
  split; [reflexivity|].
  simplify_eq. rewrite take_ge; [reflexivity|].
  simpl. apply Hlen. reflexivity.
Qed.

(** Against C2 as stated: the cache is full and the task is cancelled
    while [_send] is awaited.  [CancelledError] is not an [Exception], the
    handler that would put A back does not run, and A has left the
    cache. *)
Lemma uncaught_failure_is_not_rolled_back :
  let w := run [Send A (Delivered "a"); Send B (Delivered "b")] two_slots in
  let out := send C (Failed CancelledError) w in
  boot three None (Some 2%Z) = Ok two_slots /\
  current_notifications w = [A; B] /\
  calls (fst out) = calls w ++ [CallSend C (Some A)] /\
  snd out = Raise CancelledError /\
  current_notifications (fst out) = [B] /\
  current_notifications (fst out) <> current_notifications w.
Proof. simpl. repeat split; try reflexivity. discriminate. Qed.

(** C2 (amended): when the backend's [_send] raises an exception derived
    from [Exception] during [send], then [send] returns and the ordered
    cache holds the same notifications in the same order as before the
    call, and the identifier index is as it was: an evicted entry is back
    at the head and the new notification is recorded in neither structure.
    This holds in every state a constructed notifier can reach.  When the
    exception is derived from [BaseException] only, [send] raises it, the
    index is as it was and an eviction is not undone. *)
Theorem failed_delivery_leaves_cache_unchanged
    h app lim w0 ops n e w' r :
  boot h app lim = Ok w0 ->
  send n (Failed e) (run ops w0) = (w', r) ->
  calls w' <> calls (run ops w0) ->
  index w' = index (run ops w0) /\
  if isinstance_Exception e
  then r = Ok tt /\
       current_notifications w' = current_notifications (run ops w0) /\
       cache w' = cache (run ops w0)
  else r = Raise e /\
       current_notifications w' =
         if len_eq_limit (run ops w0)
         then tail (current_notifications (run ops w0))
         else current_notifications (run ops w0).
Proof.
  intros Hboot Hsend Hcalls.
  destruct (send_failed_reached _ _ _ _ _
              (reachable_consistent _ _ _ _ ops Hboot) Hsend Hcalls)
    as [Hi H].
  split; [exact Hi|].
  destruct (isinstance_Exception e); [|exact H].
  destruct H as [Hr Hc]. split; [exact Hr|].
  unfold current_notifications. rewrite Hc. auto.
Qed.

(** The scenario of the specification: limit 1, A delivered, then the
    delivery of B fails. *)
Lemma failed_delivery_leaves_cache_unchanged_witness :
  let w := run [Send A (Delivered "a")] one_slot in
  let out := send B (Failed (OtherException "DBusError")) w in
  boot three None (Some 1%Z) = Ok one_slot /\
  calls (fst out) <> calls w /\
  snd out = Ok tt /\
  current_notifications (fst out) = [A] /\
  index (fst out) = index w.
Proof.
  intros w out.
  assert (Hcalls : calls (fst out) <> calls w) by discriminate.
  destruct (failed_delivery_leaves_cache_unchanged
              three None (Some 1%Z) one_slot [Send A (Delivered "a")] B
              (OtherException "DBusError") (fst out) (snd out)
              eq_refl eq_refl Hcalls)
    as (Hi & Hr & Hl & _).
  split; [reflexivity|]. split; [exact Hcalls|]. split; [exact Hr|].
  split; [rewrite Hl; reflexivity | exact Hi].
Defined.

(** Against C3 as stated: an exception from the backend that [send]
    propagates to its caller.  The task is cancelled while [_send] is
    awaited; [CancelledError] is not an [Exception], so the handler does
    not match and no warning is logged. *)
Lemma send_propagates_cancellation :
  let w := run [Send A (Delivered "a")] one_slot in
  let out := send B (Failed CancelledError) w in
  boot three None (Some 1%Z) = Ok one_slot /\
  calls (fst out) = calls w ++ [CallSend B (Some A)] /\
  snd out = Raise CancelledError /\
  snd out <> Ok tt /\
  log (fst out) = log w.
Proof. simpl. repeat split; try reflexivity. discriminate. Qed.

(** C3 (amended): for every notification and every exception derived from
    [Exception] that the backend's [_send] raises, [send] does not
    propagate it: it returns normally and has emitted one warning-level
    log record, "Notification failed", carrying the exception.  An
    exception derived from [BaseException] only is propagated to the
    caller and nothing is logged. *)
Theorem send_swallows_Exception n e w w' r :
  send n (Failed e) w = (w', r) ->
  calls w' <> calls w ->
  if isinstance_Exception e
  then r = Ok tt /\
       log w' = log w ++ [mkLogRecord WARNING "Notification failed" (Some e)]
  else r = Raise e /\ log w' = log w.
Proof.
  unfold_ops. open_world w.
  repeat branch; intros [= <- <-]; simpl; intros Hcalls;
    try (split; reflexivity); congruence.
Qed.

Lemma send_swallows_Exception_witness :
  let w := run [Send A (Delivered "a")] one_slot in
  let out := send B (Failed (OtherException "DBusError")) w in
  snd out = Ok tt /\
  log (fst out) = [mkLogRecord WARNING "Notification failed"
                     (Some (OtherException "DBusError"))].
Proof.
  intros w out.
  assert (Hcalls : calls (fst out) <> calls w) by discriminate.
  exact (send_swallows_Exception B (OtherException "DBusError") w
           (fst out) (snd out) eq_refl Hcalls).
Defined.

(** ** The limit *)

Lemma step_limit op w : limit (fst (step op w)) = limit w.
Proof.
  destruct op as [n [nid|e]|n [|e]|[|e]|n]; simpl; unfold_ops;
    open_world w; repeat branch; reflexivity.
Qed.

Lemma run_limit ops w : limit (run ops w) = limit w.
Proof.
  revert w. induction ops as [|op ops IH]; intros w; simpl; [reflexivity|].
  rewrite IH. apply step_limit.
Qed.

Lemma boot_limit h app lim w0 : boot h app lim = Ok w0 -> limit w0 = lim.
Proof.
  unfold boot, DesktopNotifierBase.__init__, deque.new.
  repeat branch; intros [= <-]; simplify_eq; reflexivity.
Qed.

(** C10: a notifier constructed with [notification_limit = 0] raises
    [IndexError] on every [send]: the deque is empty, its length equals the
    limit, and [popleft] fails before the backend is invoked.  The notifier
    is left as it was, so no delivery was attempted and no warning was
    logged. *)
Theorem limit_zero_send_raises_IndexError h app :
  exists w0,
    boot h app (Some 0%Z) = Ok w0 /\
    forall ops n reply,
      send n reply (run ops w0) = (run ops w0, Raise IndexError) /\
      calls (fst (send n reply (run ops w0))) = calls (run ops w0) /\
      log (fst (send n reply (run ops w0))) = log (run ops w0).
Proof.
  eexists. split; [reflexivity|]. intros ops n reply.
  match goal with |- context [run ops ?w0] => set (w := run ops w0) end.
  assert (Hc : consistent w)
    by (apply (reachable_consistent h app (Some 0%Z)); reflexivity).
  assert (Hl : limit w = Some 0%Z) by (unfold w; rewrite run_limit; reflexivity).
  assert (Hs : send n reply w = (w, Raise IndexError)).
  { clearbody w. revert Hc Hl. unfold_ops. open_world w.
    intros (Hm & _ & Hlen) ->. simpl in Hm. specialize (Hlen _ Hm).
    destruct its as [|x its]; [reflexivity | simpl in Hlen; lia]. }
  rewrite Hs. auto.
Qed.

(** Against C9 as stated: the default application name is not "App". *)
Lemma default_app_name_is_not_App :
  match DesktopNotifierBase.__init__ None None with
  | Ok s => DesktopNotifierBase.app_name s <> "App"
  | Raise _ => False
  end.
Proof. simpl. discriminate. Qed.

(** Without a limit, [send] passes no notification to replace and a
    delivered notification is added at the tail. *)
Lemma send_unbounded n reply w :
  consistent w -> limit w = None ->
  calls (fst (send n reply w)) = calls w ++ [CallSend n None] /\
  current_notifications (fst (send n reply w)) =
    match reply with
    | Delivered _ => current_notifications w ++ [n]
    | Failed _ => current_notifications w
    end.
Proof.
  unfold_ops. open_world w. intros (Hm & _ & _) ->. simpl in Hm. subst ml.
  destruct reply as [nid|e]; simpl; [split; reflexivity|].
  destruct (isinstance_Exception e); split; reflexivity.
Qed.

(** C9 (amended): a notifier constructed without an explicit [app_name]
    has [app_name] equal to "Python", and a notifier constructed without a
    [notification_limit] has an unbounded cache: whatever happened before,
    [send] hands the backend no notification to replace, a delivered
    notification is appended to the cache and nothing is removed from it. *)
Theorem default_construction h :
  (exists w0,
     boot h None None = Ok w0 /\
     DesktopNotifierBase.app_name (self w0) = "Python") /\
  (forall app, exists w0,
     boot h app None = Ok w0 /\
     forall ops n reply,
       let w := run ops w0 in
       calls (fst (send n reply w)) = calls w ++ [CallSend n None] /\
       current_notifications (fst (send n reply w)) =
         match reply with
         | Delivered _ => current_notifications w ++ [n]
         | Failed _ => current_notifications w
         end).
Proof.
  split; [eexists; split; reflexivity|].
  intros app. eexists. split; [reflexivity|]. intros ops n reply w.
  apply send_unbounded.
  - apply (reachable_consistent h app None). reflexivity.
  - unfold w. rewrite run_limit. reflexivity.
Qed.

(** ** Eviction order *)

(** One delivered [send] on a notifier with a positive limit: the cache
    becomes the last [N] of the old cache followed by the notification. *)
Lemma send_delivered_positive_limit n nid w N :
  consistent w -> limit w = Some N -> (0 < N)%Z ->
  current_notifications (fst (send n (Delivered nid) w)) =
    drop (length (current_notifications w ++ [n]) - Z.to_nat N)
         (current_notifications w ++ [n]).
Proof.
  unfold_ops. open_world w. intros (Hm & _ & Hlen) -> HN. subst ml.
  specialize (Hlen _ eq_refl).
  repeat branch.
  - apply Z.eqb_eq in Heqb. simpl in Heqb. lia.
  - apply Z.eqb_eq in Heqb. simpl in Heqb.
    rewrite !length_app. simpl.
    replace (length l + 1 - Z.to_nat N) with 0 by lia.
    replace (S (length l + 1) - Z.to_nat N) with 1 by lia.
    reflexivity.
  - reflexivity.
Qed.

Lemma run_deliveries sent w N :
  consistent w -> limit w = Some N -> (0 < N)%Z ->
  current_notifications (run (deliveries sent) w) =
    drop (length (current_notifications w ++ map fst sent) - Z.to_nat N)
         (current_notifications w ++ map fst sent).
Proof.
  revert w. induction sent as [|[n nid] sent IH]; intros w Hc Hl HN; simpl.
  - rewrite app_nil_r. destruct Hc as (Hm & _ & Hlen).
    rewrite Hl in Hm. simpl in Hm. specialize (Hlen _ Hm).
    unfold current_notifications, deque.len in *.
    replace (length (deque.items (cache w)) - Z.to_nat N) with 0 by lia.
    reflexivity.
  - rewrite IH.
    + rewrite (send_delivered_positive_limit n nid w N Hc Hl HN).
      set (c := current_notifications w).
      replace (c ++ n :: map fst sent) with ((c ++ [n]) ++ map fst sent)
        by (rewrite <- app_assoc; reflexivity).
      set (l := c ++ [n]). set (k := map fst sent).
      destruct (decide (length l <= Z.to_nat N)) as [Hle|Hgt].
      * replace (length l - Z.to_nat N) with 0 by lia. reflexivity.
      * assert (Hd : drop (length l - Z.to_nat N) l ++ k =
                     drop (length l - Z.to_nat N) (l ++ k))
          by (rewrite drop_app_le by lia; reflexivity).
        rewrite Hd, drop_drop. f_equal.
        rewrite length_drop, !length_app. lia.
    + apply (step_consistent (Send n (Delivered nid))). exact Hc.
    + exact (eq_trans (step_limit (Send n (Delivered nid)) w) Hl).
    + exact HN.
Qed.

(** C5: on a notifier constructed with a positive [notification_limit N],
    after any sequence of [send] calls whose deliveries all succeed, the
    ordered cache holds at most [N] notifications and is exactly the last
    [N] notifications sent, in the order in which they were sent (all of
    them when fewer than [N] were sent): the oldest are evicted first. *)
Theorem cache_is_last_N_sent h app N w0 (sent : list (ref * string)) :
  (0 < N)%Z ->
  boot h app (Some N) = Ok w0 ->
  length (current_notifications (run (deliveries sent) w0)) <= Z.to_nat N /\
  current_notifications (run (deliveries sent) w0) =
    drop (length sent - Z.to_nat N) (map fst sent).
Proof.
  intros HN Hboot.
  pose proof (boot_consistent _ _ _ _ Hboot) as Hc.
  pose proof (boot_limit _ _ _ _ Hboot) as Hl.
  assert (Hempty : current_notifications w0 = []).
  { revert Hboot. unfold boot, DesktopNotifierBase.__init__, deque.new.
    repeat branch; intros [= <-]; simplify_eq; reflexivity. }
  rewrite (run_deliveries sent w0 N Hc Hl HN), Hempty. simpl.
  rewrite length_map. split; [|reflexivity].
  rewrite length_drop, length_map. lia.
Qed.

(** The scenario of the specification: limit 2; A, B and C are sent and
    delivered; the cache is [B; C]. *)
Lemma cache_is_last_N_sent_witness :
  (0 < 2)%Z /\
  boot three None (Some 2%Z) = Ok two_slots /\
  current_notifications
    (run [Send A (Delivered "a"); Send B (Delivered "b");
          Send C (Delivered "c")] two_slots) = [B; C].
Proof.
  split; [lia|]. split; [reflexivity|].
  exact (proj2 (cache_is_last_N_sent three None 2%Z two_slots
                  [(A, "a"); (B, "b"); (C, "c")] eq_refl eq_refl)).
Defined.

(** ** Forgetting and clearing *)

(** [_clear_notification_from_cache] never raises. *)
Lemma forget_eq n w :
  _clear_notification_from_cache n w = (forgotten n w, Ok tt).
Proof.
  unfold forgotten. unfold_ops. open_world w.
  repeat branch; try reflexivity.
  all: rewrite delete_id by assumption; reflexivity.
Qed.

(** Against C4 as stated: A is displayed; the backend's [_clear], then its
    [_clear_all], raise.  The exception reaches the caller and A is still
    in the cache and in the index. *)
Lemma clear_failure_keeps_cache_example :
  let w := run [Send A (Delivered "a")] unbounded in
  let e := OtherException "DBusError" in
  boot three None None = Ok unbounded /\
  current_notifications w = [A] /\
  snd (clear A (DismissFailed e) w) = Raise e /\
  current_notifications (fst (clear A (DismissFailed e) w)) = [A] /\
  index (fst (clear A (DismissFailed e) w)) !! "a" = Some A /\
  snd (clear_all (DismissFailed e) w) = Raise e /\
  current_notifications (fst (clear_all (DismissFailed e) w)) = [A] /\
  index (fst (clear_all (DismissFailed e) w)) !! "a" = Some A.
Proof. repeat split; reflexivity. Qed.

(** C4 (amended): when the notification has an identifier and the
    backend's [_clear] raises during [clear], or the backend's
    [_clear_all] raises during [clear_all], the exception is raised to the
    caller and the ordered cache and the identifier index are left as they
    were.  When the primitive returns, [clear] has removed the notification
    from the ordered cache (its first occurrence) and its identifier from
    the index, and [clear_all] has emptied both.  The two statements about
    [clear_all] hold in every state of every notifier. *)
Theorem clear_outcomes n e w :
  (identifier_of (heap w) n <> "" ->
   (snd (clear n (DismissFailed e) w) = Raise e /\
    calls (fst (clear n (DismissFailed e) w)) = calls w ++ [CallClear n] /\
    cache (fst (clear n (DismissFailed e) w)) = cache w /\
    index (fst (clear n (DismissFailed e) w)) = index w) /\
   (snd (clear n Dismissed w) = Ok tt /\
    current_notifications (fst (clear n Dismissed w)) =
      default (current_notifications w)
              (deque.remove_first n (current_notifications w)) /\
    index (fst (clear n Dismissed w)) =
      delete (identifier_of (heap w) n) (index w))) /\
  (snd (clear_all (DismissFailed e) w) = Raise e /\
   calls (fst (clear_all (DismissFailed e) w)) = calls w ++ [CallClearAll] /\
   cache (fst (clear_all (DismissFailed e) w)) = cache w /\
   index (fst (clear_all (DismissFailed e) w)) = index w) /\
  (snd (clear_all Dismissed w) = Ok tt /\
   current_notifications (fst (clear_all Dismissed w)) = [] /\
   index (fst (clear_all Dismissed w)) = ∅).
Proof.
  split; [|split].
  - intros Hid. apply String.eqb_neq in Hid. split.
    + unfold_ops. open_world w. rewrite Hid. simpl. auto.
    + unfold_ops. open_world w. rewrite !Hid. simpl.
      repeat branch; simpl; repeat split; try reflexivity.
      all: try discriminate; symmetry; apply delete_id; assumption.
  - unfold_ops. open_world w. auto.
  - unfold_ops. open_world w. auto.
Qed.

Lemma clear_outcomes_witness :
  let w := run [Send A (Delivered "a")] unbounded in
  let e := OtherException "DBusError" in
  identifier_of (heap w) A <> "" /\
  snd (clear A (DismissFailed e) w) = Raise e /\
  current_notifications (fst (clear A (DismissFailed e) w)) = [A] /\
  snd (clear A Dismissed w) = Ok tt /\
  current_notifications (fst (clear A Dismissed w)) = [] /\
  snd (clear_all (DismissFailed e) unbounded) = Raise e /\
  current_notifications (fst (clear_all Dismissed w)) = [].
Proof.
  intros w e.
  assert (Hid : identifier_of (heap w) A <> "") by discriminate.
  destruct (clear_outcomes A e w) as (Hclear & _ & (_ & Hall & _)).
  destruct (Hclear Hid) as ((Hr & _ & Hc & _) & (Hok & Hrm & _)).
  destruct (clear_outcomes A e unbounded) as (_ & (Hfresh & _) & _).
  split; [exact Hid|]. split; [exact Hr|].
  split; [unfold current_notifications; rewrite Hc; reflexivity|].
  split; [exact Hok|]. split; [rewrite Hrm; reflexivity|].
  split; [exact Hfresh | exact Hall].
Defined.

Lemma remove_first_gone x l :
  count_occ Nat.eq_dec l x <= 1 ->
  x ∉ default l (deque.remove_first x l).
Proof.
  intros Hc. destruct (deque.remove_first x l) as [r|] eqn:Hr; simpl.
  - exact (remove_first_once x l r Hc Hr).
  - apply remove_first_None. exact Hr.
Qed.

Lemma clear_dismissed_effect n w :
  identifier_of (heap w) n <> "" ->
  exists w',
    clear n Dismissed w = (w', Ok tt) /\
    calls w' = calls w ++ [CallClear n] /\
    current_notifications w' =
      default (current_notifications w)
              (deque.remove_first n (current_notifications w)) /\
    index w' = delete (identifier_of (heap w) n) (index w) /\
    heap w' = heap w.
Proof.
  intros Hid. apply String.eqb_neq in Hid.
  unfold_ops. open_world w. rewrite !Hid. simpl.
  repeat branch; eexists; (split; [reflexivity|]); simpl;
    repeat split; try reflexivity.
  all: try discriminate; symmetry; apply delete_id; assumption.
Qed.

(** Why the runs considered below record no notification twice: a
    notification sent again while it is still in the cache is in it twice,
    and one [clear] takes out one occurrence. *)
Lemma resent_notification_survives_clear :
  let w1 := run [Send A (Delivered "a")] unbounded in
  let sent := send A (Delivered "a2") w1 in
  let cleared := clear A Dismissed (fst sent) in
  boot three None None = Ok unbounded /\
  snd sent = Ok tt /\
  identifier_of (heap (fst sent)) A = "a2" /\
  index (fst sent) !! "a2" = Some A /\
  snd cleared = Ok tt /\
  calls (fst cleared) = calls (fst sent) ++ [CallClear A] /\
  current_notifications (fst cleared) = [A] /\
  ~ (A ∉ current_notifications (fst cleared)).
Proof.
  simpl. repeat split; try reflexivity.
  intros H. apply H. apply list_elem_of_singleton. reflexivity.
Qed.

(** ** The deprecated [sound] flag *)

(** C7: constructing a [Notification] with the deprecated flag
    [sound=True] yields an object whose [sound_file] is [DEFAULT_SOUND],
    whatever [sound_file] was passed, and a [DeprecationWarning] is issued
    during the construction. *)
Theorem deprecated_sound_flag_is_translated
    title message urgency icon buttons reply_field on_clicked on_dismissed
    attachment thread timeout sound_file :
  let built :=
    Notification.__init__ title message urgency icon buttons reply_field
      on_clicked on_dismissed attachment true thread timeout sound_file in
  Notification.sound_file (fst built) = Some DEFAULT_SOUND /\
  snd built =
    [mkWarning "Use sound_file=DEFAULT_SOUND instead of sound=True."
               DeprecationWarning] /\
  Exists (fun m => category m = DeprecationWarning) (snd built).
Proof.
  simpl. split; [reflexivity|]. split; [reflexivity|].
  apply Exists_cons_hd. reflexivity.
Qed.

(** ** Idempotence of forgetting *)

(** The same for forgetting: with a notification in the cache twice, the
    second call removes the second occurrence. *)
Lemma forget_twice_differs :
  let w := run [Send A (Delivered "a"); Send A (Delivered "a")] unbounded in
  boot three None None = Ok unbounded /\
  current_notifications w = [A; A] /\
  current_notifications (run [Forget A] w) = [A] /\
  current_notifications (run [Forget A; Forget A] w) = [] /\
  run [Forget A; Forget A] w <> run [Forget A] w.
Proof.
  simpl. repeat split; try reflexivity. discriminate.
Qed.

Lemma remove_first_subseteq x l r :
  deque.remove_first x l = Some r -> r ⊆ l.
Proof.
  revert r. induction l as [|y l IH]; intros r; simpl; [discriminate|].
  destruct (decide (y = x)).
  - intros [= <-] z Hz. apply elem_of_cons. right. exact Hz.
  - destruct (deque.remove_first x l) as [r'|]; [|discriminate].
    intros [= <-] z Hz. apply elem_of_cons in Hz as [->|Hz].
    + apply elem_of_cons. left. reflexivity.
    + apply elem_of_cons. right. exact (IH r' eq_refl z Hz).
Qed.

(** A notification that no delivered [send] concerns keeps its identifier
    and stays out of the cache. *)
Lemma step_keeps_stranger n op w :
  delivers n op = false ->
  n ∉ current_notifications w ->
  (n ∉ current_notifications (fst (step op w))) /\
  identifier_of (heap (fst (step op w))) n = identifier_of (heap w) n.
Proof.
  destruct op as [m [nid|e]|m [|e]|[|e]|m]; simpl; intros Hd Hn.
  - apply bool_decide_eq_false in Hd.
    revert Hn. unfold_ops. open_world w. intros Hn.
    repeat branch; simpl;
      (split; [|unfold identifier_of; rewrite ?lookup_alter_ne by exact Hd;
                reflexivity]).
    all: try assumption.
    all: intros Hin; try apply subseteq_drop in Hin.
    all: apply elem_of_app in Hin as [Hin|Hin];
      [|apply list_elem_of_singleton in Hin; congruence].
    all: apply Hn; simplify_eq; try assumption.
    all: apply elem_of_cons; right; exact Hin.
  - revert Hn. unfold_ops. open_world w. intros Hn.
    repeat branch; simpl; (split; [|reflexivity]); try assumption.
    all: intros Hin; try apply subseteq_take in Hin; apply Hn; simplify_eq;
      try assumption.
    all: apply elem_of_cons; right; exact Hin.
  - revert Hn. unfold_ops. open_world w. intros Hn.
    repeat branch; simpl; (split; [|reflexivity]); try assumption.
    all: intros Hin; apply Hn;
      eapply remove_first_subseteq; [eassumption | exact Hin].
  - revert Hn. unfold_ops. open_world w. intros Hn.
    repeat branch; simpl; (split; [|reflexivity]); try assumption.
    all: intros Hin; apply Hn;
      eapply remove_first_subseteq; [eassumption | exact Hin].
  - revert Hn. unfold_ops. open_world w. intros Hn.
    split; [apply not_elem_of_nil | reflexivity].
  - revert Hn. unfold_ops. open_world w. intros Hn.
    split; [assumption | reflexivity].
  - revert Hn. unfold_ops. open_world w. intros Hn.
    repeat branch; simpl; (split; [|reflexivity]); try assumption.
    all: intros Hin; apply Hn;
      eapply remove_first_subseteq; [eassumption | exact Hin].
Qed.

Lemma run_keeps_stranger n ops w :
  never_delivered n ops = true ->
  n ∉ current_notifications w ->
  (n ∉ current_notifications (run ops w)) /\
  identifier_of (heap (run ops w)) n = identifier_of (heap w) n.
Proof.
  revert w. induction ops as [|op ops IH]; intros w Hnd Hn; simpl.
  - split; [exact Hn | reflexivity].
  - simpl in Hnd. apply andb_prop in Hnd as [Hop Hnd].
    apply negb_true_iff in Hop.
    destruct (step_keeps_stranger n op w Hop Hn) as [Hn' Hid'].
    destruct (IH _ Hnd Hn') as [Hn'' Hid''].
    split; [exact Hn'' | rewrite Hid''; exact Hid'].
Qed.

Lemma forgotten_twice n w :
  count_occ Nat.eq_dec (current_notifications w) n <= 1 ->
  forgotten n (forgotten n w) = forgotten n w.
Proof.
  intros Hc. pose proof (remove_first_gone n _ Hc) as Hgone.
  apply remove_first_None in Hgone.
  unfold forgotten. open_world w. rewrite Hgone. simpl.
  destruct (String.eqb (identifier_of h n) ""); [reflexivity|].
  rewrite delete_delete_eq. reflexivity.
Qed.

Lemma forgotten_stranger n w :
  n ∉ current_notifications w ->
  identifier_of (heap w) n = "" ->
  forgotten n w = w.
Proof.
  intros Hn Hid. apply remove_first_None in Hn.
  unfold forgotten. rewrite Hid, Hn. open_world w. reflexivity.
Qed.

Lemma boot_empty h app lim w0 :
  boot h app lim = Ok w0 -> current_notifications w0 = [] /\ heap w0 = h.
Proof.
  unfold boot, DesktopNotifierBase.__init__, deque.new.
  repeat branch; intros [= <-]; simplify_eq; split; reflexivity.
Qed.

(** ** The index after an eviction *)

(** C1 (the code at a failing input): limit 1; A is sent and delivered as
    "a", then B is sent and delivered as "b".  The second [send] evicts A
    from the ordered cache, and the identifier index still maps "a" to A:
    an entry of the index whose notification is not in the cache. *)
Theorem eviction_leaves_stale_index_entry :
  let w := run [Send A (Delivered "a"); Send B (Delivered "b")] one_slot in
  boot three None (Some 1%Z) = Ok one_slot /\
  calls w = [CallSend A None; CallSend B (Some A)] /\
  current_notifications w = [B] /\
  identifier_of (heap w) A = "a" /\
  index w !! "a" = Some A /\
  (A ∉ current_notifications w).
Proof.
  simpl. repeat split; try reflexivity.
  intros H. apply list_elem_of_singleton in H. discriminate.
Qed.

(** [send] never removes a key from the identifier index, whatever the
    backend replies and whether or not a notification was evicted. *)
Lemma send_never_unindexes n reply w k :
  is_Some (index w !! k) ->
  is_Some (index (fst (send n reply w)) !! k).
Proof.
  unfold_ops. open_world w. intros Hk.
  repeat branch; try assumption.
  all: match goal with
       | |- is_Some (<[?i := _]> _ !! ?j) =>
           destruct (decide (i = j)) as [->|Hne];
           [rewrite lookup_insert_eq; eauto
           |rewrite lookup_insert_ne by exact Hne; assumption]
       end.
Qed.

(** * Further properties of the notifier *)

(** ** The constructor *)

(** [DesktopNotifierBase.__init__] raises [OverflowError] exactly when the
    limit does not fit a [Py_ssize_t] and [ValueError] exactly when it fits
    and is negative (both come from [deque([], notification_limit)]);
    otherwise the notifier starts with the limit as given, an empty cache
    and an empty index. *)
Theorem constructor_refuses_bad_limits app lim :
  match DesktopNotifierBase.__init__ app lim with
  | Raise e =>
      exists l, lim = Some l /\
        ((e = OverflowError /\
          ((l < - deque.PY_SSIZE_T_MAX - 1)%Z \/ (deque.PY_SSIZE_T_MAX < l)%Z))
         \/
         (e = ValueError /\ (- deque.PY_SSIZE_T_MAX - 1 <= l < 0)%Z))
  | Ok s =>
      (forall l, lim = Some l -> (0 <= l <= deque.PY_SSIZE_T_MAX)%Z) /\
      DesktopNotifierBase.notification_limit s = lim /\
      deque.items (DesktopNotifierBase._current_notifications s) = [] /\
      DesktopNotifierBase._notification_for_nid s = ∅
  end.
Proof.
  unfold DesktopNotifierBase.__init__, deque.new.
  destruct lim as [l|]; simpl.
  - destruct ((l <? - deque.PY_SSIZE_T_MAX - 1)
              || (deque.PY_SSIZE_T_MAX <? l))%Z eqn:Hfit; simpl.
    + exists l. split; [reflexivity|]. left. split; [reflexivity|].
      apply orb_true_iff in Hfit as [H|H]; apply Z.ltb_lt in H; auto.
    + apply orb_false_iff in Hfit as [Hlo Hhi].
      apply Z.ltb_ge in Hlo, Hhi.
      destruct (l <? 0)%Z eqn:Hl; simpl.
      * apply Z.ltb_lt in Hl. exists l. split; [reflexivity|]. right.
        split; [reflexivity|]. lia.
      * apply Z.ltb_ge in Hl.
        split; [intros l' [= <-]; lia | repeat split].
  - split; [discriminate | repeat split].
Qed.

(** ** The bound *)

(** Whatever is asked of a notifier constructed with limit [N] and
    whatever the backend replies, the cache never holds more than [N]
    notifications. *)
Theorem cache_never_exceeds_limit h app N w0 ops :
  boot h app (Some N) = Ok w0 ->
  length (current_notifications (run ops w0)) <= Z.to_nat N.
Proof.
  intros Hboot.
  destruct (reachable_consistent h app (Some N) w0 ops Hboot) as (Hm & _ & Hlen).
  rewrite run_limit, (boot_limit _ _ _ _ Hboot) in Hm. simpl in Hm.
  exact (Hlen _ Hm).
Qed.

Lemma cache_never_exceeds_limit_witness :
  boot three None (Some 1%Z) = Ok one_slot /\
  length (current_notifications
            (run [Send A (Delivered "a"); Send B (Failed CancelledError);
                  Send C (Delivered "c"); Forget B] one_slot)) <= 1.
Proof.
  split; [reflexivity|].
  exact (cache_never_exceeds_limit three None 1%Z one_slot
           [Send A (Delivered "a"); Send B (Failed CancelledError);
            Send C (Delivered "c"); Forget B] eq_refl).
Defined.

(** ** Runs of [send] calls with failures *)

(** Keeping the last [N] twice is keeping the last [N]. *)
Lemma drop_last_app (l k : list nat) N :
  drop (length (drop (length l - N) l ++ k) - N) (drop (length l - N) l ++ k) =
  drop (length (l ++ k) - N) (l ++ k).
Proof.
  destruct (decide (length l <= N)) as [Hle|Hgt].
  - replace (length l - N) with 0 by lia. reflexivity.
  - assert (Hd : drop (length l - N) l ++ k = drop (length l - N) (l ++ k))
      by (rewrite drop_app_le by lia; reflexivity).
    rewrite Hd, drop_drop. f_equal.
    rewrite length_drop, !length_app. lia.
Qed.

(** One [send] on a notifier with a positive limit, the failure, if any,
    being caught. *)
Lemma send_step_limited n reply w N :
  consistent w -> limit w = Some N -> (0 < N)%Z ->
  failures_caught [(n, reply)] = true ->
  snd (send n reply w) = Ok tt /\
  current_notifications (fst (send n reply w)) =
    drop (length (current_notifications w ++ delivered [(n, reply)])
            - Z.to_nat N)
         (current_notifications w ++ delivered [(n, reply)]) /\
  log (fst (send n reply w)) = log w ++ warnings_of [(n, reply)].
Proof.
  unfold failures_caught. simpl. rewrite andb_true_r.
  unfold_ops. open_world w. intros (Hm & _ & Hlen) -> HN Hcaught. subst ml.
  specialize (Hlen _ eq_refl).
  destruct reply as [nid|e]; simpl in *.
  - rewrite app_nil_r.
    repeat branch; (split; [try reflexivity|split; [|try reflexivity]]).
    all: try (apply Z.eqb_eq in Heqb; simpl in Heqb).
    all: try lia.
    + rewrite !length_app. simpl.
      replace (length l + 1 - Z.to_nat N) with 0 by lia.
      replace (S (length l + 1) - Z.to_nat N) with 1 by lia.
      reflexivity.
    + reflexivity.
  - rewrite Hcaught, !app_nil_r.
    repeat branch; (split; [try reflexivity|split; [|try reflexivity]]).
    all: try (apply Z.eqb_eq in Heqb; simpl in Heqb).
    all: try lia.
    + rewrite take_ge by (simpl; lia).
      replace (S (length l) - Z.to_nat N) with 0 by lia.
      reflexivity.
    + replace (length its - Z.to_nat N) with 0 by lia. reflexivity.
Qed.

Lemma delivered_cons p l : delivered (p :: l) = delivered [p] ++ delivered l.
Proof. destruct p as [n [nid|e]]; reflexivity. Qed.

Lemma warnings_of_cons p l :
  warnings_of (p :: l) = warnings_of [p] ++ warnings_of l.
Proof. destruct p as [n [nid|e]]; reflexivity. Qed.

Lemma run_sends_limited l w N :
  consistent w -> limit w = Some N -> (0 < N)%Z ->
  failures_caught l = true ->
  current_notifications (run (sends l) w) =
    drop (length (current_notifications w ++ delivered l) - Z.to_nat N)
         (current_notifications w ++ delivered l) /\
  log (run (sends l) w) = log w ++ warnings_of l.
Proof.
  revert w. induction l as [|[n reply] l IH]; intros w Hc Hl HN Hcaught.
  - simpl. rewrite !app_nil_r. split; [|reflexivity].
    destruct Hc as (Hm & _ & Hlen). rewrite Hl in Hm. simpl in Hm.
    specialize (Hlen _ Hm). unfold current_notifications, deque.len in *.
    replace (length (deque.items (cache w)) - Z.to_nat N) with 0 by lia.
    reflexivity.
  - unfold failures_caught in Hcaught. simpl in Hcaught.
    apply andb_prop in Hcaught as [Hhead Htail].
    assert (Hone : failures_caught [(n, reply)] = true)
      by (unfold failures_caught; simpl; rewrite Hhead; reflexivity).
    destruct (send_step_limited n reply w N Hc Hl HN Hone) as (_ & Hcur & Hlog).
    change (run (sends ((n, reply) :: l)) w)
      with (run (sends l) (fst (send n reply w))).
    destruct (IH (fst (send n reply w))) as [IHcur IHlog].
    + exact (step_consistent (Send n reply) w Hc).
    + exact (eq_trans (step_limit (Send n reply) w) Hl).
    + exact HN.
    + exact Htail.
    + rewrite IHcur, IHlog, Hcur, Hlog.
      rewrite (delivered_cons (n, reply) l), (warnings_of_cons (n, reply) l).
      rewrite !app_assoc. split; [|reflexivity].
      apply drop_last_app.
Qed.

Lemma run_app ops1 ops2 w : run (ops1 ++ ops2) w = run ops2 (run ops1 w).
Proof.
  revert w. induction ops1 as [|op ops1 IH]; intros w; simpl; [reflexivity|].
  apply IH.
Qed.

(** On a notifier with a positive limit [N], after any sequence of [send]
    calls whose failures are all caught by [except Exception], the cache
    is the last [N] of the delivered notifications, in the order of their
    delivery, and the log holds one warning per failed delivery, in order:
    a failed delivery neither takes a slot nor costs one. *)
Theorem failed_sends_leave_eviction_order h app N w0 l :
  (0 < N)%Z ->
  boot h app (Some N) = Ok w0 ->
  failures_caught l = true ->
  current_notifications (run (sends l) w0) =
    drop (length (delivered l) - Z.to_nat N) (delivered l) /\
  log (run (sends l) w0) = warnings_of l.
Proof.
  intros HN Hboot Hcaught.
  destruct (boot_empty _ _ _ _ Hboot) as [Hempty _].
  assert (Hlog : log w0 = []).
  { revert Hboot. unfold boot, DesktopNotifierBase.__init__, deque.new.
    repeat branch; intros [= <-]; reflexivity. }
  destruct (run_sends_limited l w0 N (boot_consistent _ _ _ _ Hboot)
              (boot_limit _ _ _ _ Hboot) HN Hcaught) as [Hcur Hl].
  rewrite Hcur, Hl, Hempty, Hlog. split; reflexivity.
Qed.

Lemma failed_sends_leave_eviction_order_witness :
  let l := [(A, Delivered "a"); (B, Failed (OtherException "DBusError"));
            (C, Delivered "c"); (B, Failed NotImplementedError);
            (B, Delivered "b")] in
  (0 < 2)%Z /\
  boot three None (Some 2%Z) = Ok two_slots /\
  failures_caught l = true /\
  current_notifications (run (sends l) two_slots) = [C; B] /\
  length (log (run (sends l) two_slots)) = 2.
Proof.
  intros l.
  destruct (failed_sends_leave_eviction_order three None 2%Z two_slots l
              eq_refl eq_refl eq_refl) as [Hcur Hlog].
  split; [lia|]. split; [reflexivity|]. split; [reflexivity|].
  split; [exact Hcur | rewrite Hlog; reflexivity].
Defined.

(** Without a limit, after any sequence of [send] calls and whatever the
    backend replies or raises, the cache is the list of the delivered
    notifications in the order of their delivery, and the backend was
    handed no notification to replace in any of the calls. *)
Theorem unbounded_cache_keeps_every_delivery h app l :
  exists w0,
    boot h app None = Ok w0 /\
    current_notifications (run (sends l) w0) = delivered l /\
    calls (run (sends l) w0) = map (fun p => CallSend (fst p) None) l.
Proof.
  eexists. split; [reflexivity|].
  match goal with |- context [run _ ?x] => set (w0 := x) end.
  assert (Hgen : forall w, consistent w -> limit w = None ->
            current_notifications (run (sends l) w) =
              current_notifications w ++ delivered l /\
            calls (run (sends l) w) =
              calls w ++ map (fun p => CallSend (fst p) None) l).
  { induction l as [|[n reply] l IH]; intros w Hc Hl; simpl.
    - rewrite !app_nil_r. split; reflexivity.
    - destruct (send_unbounded n reply w Hc Hl) as [Hcalls Hcur].
      destruct (IH (fst (send n reply w))) as [IHcur IHcalls].
      + exact (step_consistent (Send n reply) w Hc).
      + exact (eq_trans (step_limit (Send n reply) w) Hl).
      + rewrite IHcur, IHcalls, Hcur, Hcalls.
        destruct reply; rewrite <- !app_assoc; split; reflexivity. }
  destruct (Hgen w0) as [Hcur Hcalls].
  - apply (boot_consistent h app None). reflexivity.
  - reflexivity.
  - rewrite Hcur, Hcalls. split; reflexivity.
Qed.

(** After a [clear_all] that the backend carried out, a notifier with a
    positive limit [N] behaves as a new one: whatever happened before, the
    cache after further [send] calls is the last [N] of the notifications
    delivered since. *)
Theorem clear_all_starts_afresh h app N w0 ops l :
  (0 < N)%Z ->
  boot h app (Some N) = Ok w0 ->
  failures_caught l = true ->
  current_notifications (run (ops ++ ClearAll Dismissed :: sends l) w0) =
    drop (length (delivered l) - Z.to_nat N) (delivered l) /\
  index (run (ops ++ [ClearAll Dismissed]) w0) = ∅.
Proof.
  intros HN Hboot Hcaught.
  rewrite !run_app.
  change (run (ClearAll Dismissed :: sends l) (run ops w0))
    with (run (sends l) (fst (clear_all Dismissed (run ops w0)))).
  change (run [ClearAll Dismissed] (run ops w0))
    with (fst (clear_all Dismissed (run ops w0))).
  set (w := run ops w0).
  assert (Hc : consistent w) by exact (reachable_consistent _ _ _ _ ops Hboot).
  assert (Hl : limit w = Some N)
    by (unfold w; rewrite run_limit; exact (boot_limit _ _ _ _ Hboot)).
  set (w1 := fst (clear_all Dismissed w)).
  assert (Hempty : current_notifications w1 = [] /\ index w1 = ∅).
  { unfold w1. clearbody w. unfold_ops. open_world w. split; reflexivity. }
  destruct Hempty as [Hempty Hidx].
  destruct (run_sends_limited l w1 N) as [Hcur _].
  - exact (step_consistent (ClearAll Dismissed) w Hc).
  - exact (eq_trans (step_limit (ClearAll Dismissed) w) Hl).
  - exact HN.
  - exact Hcaught.
  - rewrite Hcur, Hempty. split; [reflexivity | exact Hidx].
Qed.

Lemma clear_all_starts_afresh_witness :
  (0 < 1)%Z /\
  boot three None (Some 1%Z) = Ok one_slot /\
  current_notifications
    (run ([Send A (Delivered "a")] ++ ClearAll Dismissed
            :: sends [(B, Delivered "b"); (C, Failed KeyError)]) one_slot)
    = [B].
Proof.
  split; [lia|]. split; [reflexivity|].
  exact (proj1 (clear_all_starts_afresh three None 1%Z one_slot
                  [Send A (Delivered "a")]
                  [(B, Delivered "b"); (C, Failed KeyError)]
                  eq_refl eq_refl eq_refl)).
Defined.

(** ** One delivered [send] *)

(** A delivered [send] on a notifier whose limit is not 0: what it leaves
    behind.  [keep] is the cache without the notification that was evicted,
    if one was. *)
Lemma send_delivered_effect n nid w :
  consistent w -> limit w <> Some 0%Z ->
  exists keep,
    snd (send n (Delivered nid) w) = Ok tt /\
    current_notifications (fst (send n (Delivered nid) w)) = keep ++ [n] /\
    (keep = current_notifications w \/
     exists x, current_notifications w = x :: keep) /\
    heap (fst (send n (Delivered nid) w)) =
      alter (Notification.set_identifier nid) n (heap w) /\
    index (fst (send n (Delivered nid) w)) =
      <[identifier_of (heap (fst (send n (Delivered nid) w))) n := n]>
        (index w) /\
    log (fst (send n (Delivered nid) w)) = log w.
Proof.
  unfold_ops. open_world w. intros (Hm & Hl & Hlen) Hz.
  repeat branch; simplify_eq.
  - exfalso. apply Hz. apply Z.eqb_eq in Heqb. simpl in Heqb.
    rewrite <- Heqb. reflexivity.
  - specialize (Hlen _ eq_refl). simpl in Hlen.
    exists l. rewrite length_app. simpl.
    replace (length l + 1 - Z.to_nat z) with 0 by lia.
    repeat split; eauto.
  - specialize (Hlen _ eq_refl). specialize (Hl _ eq_refl).
    apply Z.eqb_neq in Heqb.
    exists its. rewrite length_app. simpl.
    replace (length its + 1 - Z.to_nat z) with 0 by lia.
    repeat split; eauto.
  - exists its. repeat split; eauto.
Qed.

Lemma run_keeps_objects n ops w :
  is_Some (heap w !! n) -> is_Some (heap (run ops w) !! n).
Proof.
  revert w. induction ops as [|op ops IH]; intros w Hn; simpl; [exact Hn|].
  apply IH. clear IH.
  destruct op as [m [nid|e]|m [|e]|[|e]|m]; simpl; revert Hn;
    unfold_ops; open_world w; intros Hn; repeat branch; try assumption.
  all: rewrite lookup_alter; case_decide; [subst|assumption].
  all: destruct Hn as [o ->]; simpl; eauto.
Qed.

(** A [send] that the backend delivers, on a notifier whose limit is not
    0 and in any state it can reach, returns normally and leaves the
    notification at the tail of the cache, carrying the identifier the
    backend assigned, and indexed under that identifier; nothing is
    logged. *)
Theorem delivered_send_is_recorded h app lim w0 ops n nid :
  boot h app lim = Ok w0 ->
  lim <> Some 0%Z ->
  is_Some (h !! n) ->
  let w := run ops w0 in
  let out := send n (Delivered nid) w in
  snd out = Ok tt /\
  last (current_notifications (fst out)) = Some n /\
  identifier_of (heap (fst out)) n = nid /\
  index (fst out) !! nid = Some n /\
  log (fst out) = log w.
Proof.
  intros Hboot Hz Hn w out.
  assert (Hc : consistent w) by exact (reachable_consistent _ _ _ _ ops Hboot).
  assert (Hl : limit w <> Some 0%Z)
    by (unfold w; rewrite run_limit, (boot_limit _ _ _ _ Hboot); exact Hz).
  assert (Hobj : is_Some (heap w !! n)).
  { apply run_keeps_objects. destruct (boot_empty _ _ _ _ Hboot) as [_ ->].
    exact Hn. }
  destruct (send_delivered_effect n nid w Hc Hl)
    as (keep & Hok & Hcur & _ & Hheap & Hidx & Hlog).
  fold out in Hok, Hcur, Hheap, Hidx, Hlog.
  assert (Hid : identifier_of (heap (fst out)) n = nid).
  { unfold identifier_of. rewrite Hheap, lookup_alter_eq.
    destruct Hobj as [o ->]. reflexivity. }
  split; [exact Hok|]. split; [rewrite Hcur; apply last_snoc|].
  split; [exact Hid|]. split; [|exact Hlog].
  rewrite Hidx, Hid. apply lookup_insert_eq.
Qed.

Lemma delivered_send_is_recorded_witness :
  let w := run [Send A (Delivered "a")] one_slot in
  let out := send B (Delivered "b") w in
  boot three None (Some 1%Z) = Ok one_slot /\
  Some 1%Z <> Some 0%Z /\
  is_Some (three !! B) /\
  snd out = Ok tt /\
  last (current_notifications (fst out)) = Some B /\
  identifier_of (heap (fst out)) B = "b" /\
  index (fst out) !! "b" = Some B.
Proof.
  intros w out.
  assert (Hz : Some 1%Z <> Some 0%Z) by discriminate.
  assert (Hobj : is_Some (three !! B)) by (eexists; reflexivity).
  destruct (delivered_send_is_recorded three None (Some 1%Z) one_slot
              [Send A (Delivered "a")] B "b" eq_refl Hz Hobj)
    as (Hok & Hlast & Hid & Hidx & _).
  repeat split; assumption.
Defined.

(** ** What the backend is handed *)

Lemma send_calls_limited n reply w N :
  consistent w -> limit w = Some N -> (0 < N)%Z ->
  calls (fst (send n reply w)) =
    calls w ++
    [CallSend n
       (if bool_decide (length (current_notifications w) = Z.to_nat N)
        then head (current_notifications w) else None)].
Proof.
  unfold_ops. open_world w. intros (Hm & _ & Hlen) -> HN. subst ml.
  specialize (Hlen _ eq_refl).
  repeat branch.
  all: repeat match goal with
       | H : (_ =? _)%Z = true |- _ => apply Z.eqb_eq in H
       | H : (_ =? _)%Z = false |- _ => apply Z.eqb_neq in H
       | H : bool_decide _ = true |- _ => apply bool_decide_eq_true in H
       | H : bool_decide _ = false |- _ => apply bool_decide_eq_false in H
       end.
  all: simpl in *; try reflexivity; lia.
Qed.

(** On a notifier with a positive limit [N], every [send] invokes the
    backend's [_send] exactly once, and the notification to replace that
    it passes is the oldest notification of the cache when the cache holds
    [N] notifications, and [None] otherwise. *)
Theorem backend_is_handed_the_oldest h app N w0 ops n reply :
  (0 < N)%Z ->
  boot h app (Some N) = Ok w0 ->
  let w := run ops w0 in
  calls (fst (send n reply w)) =
    calls w ++
    [CallSend n
       (if bool_decide (length (current_notifications w) = Z.to_nat N)
        then head (current_notifications w) else None)].
Proof.
  intros HN Hboot w.
  apply send_calls_limited; [|
    unfold w; rewrite run_limit; exact (boot_limit _ _ _ _ Hboot) | exact HN].
  exact (reachable_consistent _ _ _ _ ops Hboot).
Qed.

Lemma backend_is_handed_the_oldest_witness :
  let w := run [Send A (Delivered "a"); Send B (Delivered "b")] two_slots in
  (0 < 2)%Z /\
  boot three None (Some 2%Z) = Ok two_slots /\
  calls (fst (send C (Delivered "c") w)) = calls w ++ [CallSend C (Some A)].
Proof.
  intros w. split; [lia|]. split; [reflexivity|].
  exact (backend_is_handed_the_oldest three None 2%Z two_slots
           [Send A (Delivered "a"); Send B (Delivered "b")] C
           (Delivered "c") eq_refl eq_refl).
Defined.

(** ** What forgetting and clearing touch *)

Lemma remove_first_app x l1 l2 :
  x ∉ l1 -> deque.remove_first x (l1 ++ x :: l2) = Some (l1 ++ l2).
Proof.
  induction l1 as [|y l1 IH]; intros Hx; simpl.
  - destruct (decide (x = x)); [reflexivity | congruence].
  - destruct (decide (y = x)) as [->|Hne].
    + exfalso. apply Hx. apply elem_of_cons. left. reflexivity.
    + rewrite IH; [reflexivity|].
      intros Hin. apply Hx. apply elem_of_cons. right. exact Hin.
Qed.

(** [_clear_notification_from_cache] takes out the first occurrence of the
    notification and nothing else: the notifications before it and after
    it stay, in their order. *)
Theorem forget_keeps_the_order n w l1 l2 :
  current_notifications w = l1 ++ n :: l2 ->
  n ∉ l1 ->
  snd (_clear_notification_from_cache n w) = Ok tt /\
  current_notifications (fst (_clear_notification_from_cache n w)) = l1 ++ l2.
Proof.
  intros Hcur Hn. rewrite forget_eq. simpl. split; [reflexivity|].
  unfold forgotten. rewrite Hcur, (remove_first_app n l1 l2 Hn).
  destruct w as [h [app lim d idx] lg cs]. reflexivity.
Qed.

Lemma forget_keeps_the_order_witness :
  let w := run [Send A (Delivered "a"); Send B (Delivered "b");
                Send A (Delivered "a2"); Send C (Delivered "c")] unbounded in
  current_notifications w = [A] ++ B :: [A; C] /\
  (B ∉ [A]) /\
  current_notifications (fst (_clear_notification_from_cache B w)) =
    [A; A; C].
Proof.
  intros w.
  assert (Hn : B ∉ [A]).
  { intros H. apply list_elem_of_singleton in H. discriminate. }
  split; [reflexivity|]. split; [exact Hn|].
  exact (proj2 (forget_keeps_the_order B w [A] [A; C] eq_refl Hn)).
Defined.

(** In the index, [_clear_notification_from_cache] removes the key equal
    to the notification's identifier, when that is not empty, whichever
    notification is stored under it, and leaves every other key as it
    was.  It changes no notification, logs nothing and calls no backend
    primitive. *)
Theorem forget_touches_one_index_key n w :
  let w' := fst (_clear_notification_from_cache n w) in
  let nid := identifier_of (heap w) n in
  (forall k,
     index w' !! k =
       if bool_decide (k = nid /\ nid <> "") then None else index w !! k) /\
  heap w' = heap w /\ log w' = log w /\ calls w' = calls w /\
  limit w' = limit w.
Proof.
  intros w' nid. subst w'. rewrite forget_eq. simpl.
  unfold forgotten. fold nid.
  destruct w as [h [app lim d idx] lg cs]. simpl in *.
  split; [|repeat split]. intros k.
  destruct (String.eqb nid "") eqn:Hid.
  - apply String.eqb_eq in Hid. case_bool_decide as Hk; [|reflexivity].
    destruct Hk as [_ Hne]. congruence.
  - apply String.eqb_neq in Hid. case_bool_decide as Hk.
    + destruct Hk as [-> _]. apply lookup_delete_eq.
    + apply lookup_delete_ne. intros <-. apply Hk. split; [reflexivity|exact Hid].
Qed.

(** [clear] of a notification whose identifier is empty does not reach the
    backend, whatever the backend would do: it is
    [_clear_notification_from_cache], it returns normally and it leaves the
    index as it was. *)
Theorem clear_of_unsent_is_local n reply w :
  identifier_of (heap w) n = "" ->
  clear n reply w = _clear_notification_from_cache n w /\
  snd (clear n reply w) = Ok tt /\
  calls (fst (clear n reply w)) = calls w /\
  index (fst (clear n reply w)) = index w.
Proof.
  intros Hid.
  assert (Heq : clear n reply w = _clear_notification_from_cache n w).
  { unfold clear, bind, gets. rewrite Hid. reflexivity. }
  rewrite Heq, forget_eq. simpl. unfold forgotten. rewrite Hid.
  destruct w as [h [app lim d idx] lg cs]. repeat split.
Qed.

Lemma clear_of_unsent_is_local_witness :
  let w := run [Send A (Delivered "a")] unbounded in
  identifier_of (heap w) B = "" /\
  snd (clear B (DismissFailed NotImplementedError) w) = Ok tt /\
  calls (fst (clear B (DismissFailed NotImplementedError) w)) = calls w.
Proof.
  intros w.
  destruct (clear_of_unsent_is_local B (DismissFailed NotImplementedError) w
              eq_refl) as (_ & Hok & Hcalls & _).
  repeat split; assumption.
Defined.

(** [clear] does not reset the identifier of the notification, whatever
    the backend replies: a second [clear] of the same notification invokes
    the backend's [_clear] again. *)
Theorem clear_does_not_reset_identifier n reply1 reply2 w :
  identifier_of (heap w) n <> "" ->
  let w1 := fst (clear n reply1 w) in
  identifier_of (heap w1) n = identifier_of (heap w) n /\
  calls (fst (clear n reply2 w1)) = calls w ++ [CallClear n; CallClear n].
Proof.
  intros Hid w1. apply String.eqb_neq in Hid.
  assert (H1 : heap w1 = heap w /\ calls w1 = calls w ++ [CallClear n]).
  { unfold w1. unfold_ops. open_world w. rewrite !Hid.
    destruct reply1; simpl; repeat branch; split; reflexivity. }
  destruct H1 as [Hheap Hcalls]. split; [rewrite Hheap; reflexivity|].
  assert (Hid1 : String.eqb (identifier_of (heap w1) n) "" = false)
    by (rewrite Hheap; exact Hid).
  clearbody w1. revert Hid1 Hcalls. clear. intros Hid1 Hcalls.
  unfold_ops. open_world w1. rewrite !Hid1. subst cs.
  destruct reply2; simpl; repeat branch; rewrite <- app_assoc; reflexivity.
Qed.

Lemma clear_does_not_reset_identifier_witness :
  let w := run [Send A (Delivered "a")] unbounded in
  let w1 := fst (clear A Dismissed w) in
  identifier_of (heap w) A <> "" /\
  current_notifications w1 = [] /\
  identifier_of (heap w1) A = "a" /\
  calls (fst (clear A Dismissed w1)) =
    [CallSend A None; CallClear A; CallClear A].
Proof.
  intros w w1.
  assert (Hid : identifier_of (heap w) A <> "") by discriminate.
  destruct (clear_does_not_reset_identifier A Dismissed Dismissed w Hid)
    as [Hsame Hcalls].
  split; [exact Hid|]. split; [reflexivity|].
  split; [exact Hsame | exact Hcalls].
Defined.

(** ** Capacity after a dismissal *)

(** When the backend reports that a cached notification was closed, a slot
    is free: the next [send] on a notifier with a positive limit hands the
    backend no notification to replace and, when delivered, evicts
    nothing. *)
Theorem forgetting_frees_a_slot h app N w0 ops x n nid :
  (0 < N)%Z ->
  boot h app (Some N) = Ok w0 ->
  x ∈ current_notifications (run ops w0) ->
  let w1 := fst (_clear_notification_from_cache x (run ops w0)) in
  calls (fst (send n (Delivered nid) w1)) = calls w1 ++ [CallSend n None] /\
  current_notifications (fst (send n (Delivered nid) w1)) =
    current_notifications w1 ++ [n].
Proof.
  intros HN Hboot Hx w1.
  set (w := run ops w0) in *.
  assert (Hc : consistent w) by exact (reachable_consistent _ _ _ _ ops Hboot).
  assert (Hl : limit w = Some N)
    by (unfold w; rewrite run_limit; exact (boot_limit _ _ _ _ Hboot)).
  assert (Hc1 : consistent w1) by exact (step_consistent (Forget x) w Hc).
  assert (Hl1 : limit w1 = Some N)
    by exact (eq_trans (step_limit (Forget x) w) Hl).
  assert (Hlen : length (current_notifications w1) < Z.to_nat N).
  { destruct Hc as (Hm & _ & Hle). rewrite Hl in Hm. simpl in Hm.
    specialize (Hle _ Hm). unfold w1. rewrite forget_eq. simpl.
    unfold forgotten.
    destruct (deque.remove_first x (current_notifications w)) as [r|] eqn:Hr.
    - apply remove_first_length in Hr.
      unfold current_notifications, deque.len in *.
      destruct w as [h' [app' lim' d idx] lg cs]. simpl in *. lia.
    - apply remove_first_None in Hr. contradiction. }
  split.
  - rewrite (send_calls_limited n (Delivered nid) w1 N Hc1 Hl1 HN).
    case_bool_decide; [lia | reflexivity].
  - rewrite (send_delivered_positive_limit n nid w1 N Hc1 Hl1 HN).
    rewrite length_app. simpl.
    replace (length (current_notifications w1) + 1 - Z.to_nat N) with 0 by lia.
    reflexivity.
Qed.

Lemma forgetting_frees_a_slot_witness :
  let w := run [Send A (Delivered "a")] one_slot in
  let w1 := fst (_clear_notification_from_cache A w) in
  (0 < 1)%Z /\
  boot three None (Some 1%Z) = Ok one_slot /\
  (A ∈ current_notifications w) /\
  calls (fst (send B (Delivered "b") w1)) = calls w1 ++ [CallSend B None] /\
  current_notifications (fst (send B (Delivered "b") w1)) = [B].
Proof.
  intros w w1.
  assert (Hin : A ∈ current_notifications w)
    by (apply list_elem_of_singleton; reflexivity).
  destruct (forgetting_frees_a_slot three None 1%Z one_slot
              [Send A (Delivered "a")] A B "b" eq_refl eq_refl Hin)
    as [Hcalls Hcur].
  split; [lia|]. split; [reflexivity|]. split; [exact Hin|].
  split; [exact Hcalls | exact Hcur].
Defined.

(** ** The base class on its own *)

Lemma unsent_identifier h n : all_unsent h -> identifier_of h n = "".
Proof.
  intros Hall. unfold identifier_of.
  destruct (h !! n) as [o|] eqn:Ho; [|reflexivity].
  exact (map_Forall_lookup_1 _ _ _ _ Hall Ho).
Qed.

Lemma base_class_step h lim req w :
  all_unsent h -> lim <> Some 0%Z ->
  current_notifications w = [] /\ index w = ∅ /\ heap w = h /\ limit w = lim ->
  (current_notifications (fst (step (on_base_class req) w)) = [] /\
   index (fst (step (on_base_class req) w)) = ∅ /\
   heap (fst (step (on_base_class req) w)) = h /\
   limit (fst (step (on_base_class req) w)) = lim) /\
  snd (step (on_base_class req) w) =
    match req with
    | ReqClearAll => Raise NotImplementedError
    | _ => Ok tt
    end.
Proof.
  intros Hall Hz (Hcur & Hidx & Hheap & Hlim).
  destruct req as [n|n|]; simpl.
  - revert Hcur Hidx Hheap Hlim. unfold_ops. open_world w.
    intros -> -> -> ->.
    destruct lim as [z|]; simpl; [|repeat split].
    destruct (Z.of_nat 0 =? z)%Z eqn:Hzero; simpl; [|repeat split].
    exfalso. apply Hz. apply Z.eqb_eq in Hzero. rewrite <- Hzero. reflexivity.
  - assert (Hid : identifier_of (heap w) n = "")
      by (rewrite Hheap; apply unsent_identifier; exact Hall).
    revert Hcur Hidx Hheap Hlim Hid. unfold_ops. open_world w.
    intros -> -> -> -> Hid. repeat (progress (simpl; rewrite ?Hid)).
    repeat split.
  - revert Hcur Hidx Hheap Hlim. unfold_ops. open_world w.
    intros -> -> -> ->. repeat split.
Qed.

(** An instance of [DesktopNotifierBase] itself (limit not 0), used with
    notifications that were never given an identifier: [send] and [clear]
    never raise, [clear_all] always raises [NotImplementedError], and,
    whatever is asked and however often, the cache and the index stay
    empty and no notification is changed. *)
Theorem bare_base_class_records_nothing h app lim w0 reqs :
  boot h app lim = Ok w0 ->
  lim <> Some 0%Z ->
  all_unsent h ->
  let w := run (map on_base_class reqs) w0 in
  current_notifications w = [] /\
  index w = ∅ /\
  heap w = h /\
  forall req,
    snd (step (on_base_class req) w) =
      match req with
      | ReqClearAll => Raise NotImplementedError
      | _ => Ok tt
      end.
Proof.
  intros Hboot Hz Hall w.
  assert (Hinv : current_notifications w = [] /\ index w = ∅ /\
                 heap w = h /\ limit w = lim).
  { unfold w. clear w.
    assert (H0 : current_notifications w0 = [] /\ index w0 = ∅ /\
                 heap w0 = h /\ limit w0 = lim).
    { destruct (boot_empty _ _ _ _ Hboot) as [Hc Hh].
      split; [exact Hc|]. split; [|split; [exact Hh|]].
      - revert Hboot. unfold boot, DesktopNotifierBase.__init__, deque.new.
        repeat branch; intros [= <-]; reflexivity.
      - exact (boot_limit _ _ _ _ Hboot). }
    clear Hboot. revert w0 H0.
    induction reqs as [|req reqs IH]; intros w0 H0; simpl; [exact H0|].
    apply IH. exact (proj1 (base_class_step h lim req w0 Hall Hz H0)). }
  destruct Hinv as (Hc & Hi & Hh & Hl).
  split; [exact Hc|]. split; [exact Hi|]. split; [exact Hh|].
  intros req.
  exact (proj2 (base_class_step h lim req w Hall Hz
                  (conj Hc (conj Hi (conj Hh Hl))))).
Qed.

Lemma three_all_unsent : all_unsent three.
Proof.
  unfold all_unsent, three.
  repeat (apply map_Forall_insert_2; [reflexivity|]).
  apply map_Forall_empty.
Defined.

Lemma bare_base_class_records_nothing_witness :
  let w := run (map on_base_class [ReqSend A; ReqClearAll; ReqSend B;
                                   ReqClear A]) unbounded in
  boot three None None = Ok unbounded /\
  None <> Some 0%Z /\
  all_unsent three /\
  current_notifications w = [] /\
  index w = ∅ /\
  snd (step (on_base_class (ReqSend C)) w) = Ok tt /\
  snd (step (on_base_class ReqClearAll) w) = Raise NotImplementedError.
Proof.
  intros w.
  assert (Hz : @None Z <> Some 0%Z) by discriminate.
  destruct (bare_base_class_records_nothing three None None unbounded
              [ReqSend A; ReqClearAll; ReqSend B; ReqClear A]
              eq_refl Hz three_all_unsent) as (Hc & Hi & _ & Hres).
  split; [reflexivity|]. split; [exact Hz|]. split; [exact three_all_unsent|].
  split; [exact Hc|]. split; [exact Hi|].
  split; [exact (Hres (ReqSend C)) | exact (Hres ReqClearAll)].
Defined.

(** ** A newly constructed notification *)

(** Whatever the arguments of [Notification.__init__], the notification it
    builds has an empty identifier, so a [clear] of it does not reach the
    backend: it returns normally and leaves the index as it was. *)
Theorem clear_of_new_notification_is_local
    title message urgency icon buttons reply_field on_clicked on_dismissed
    attachment sound thread timeout sound_file n reply w :
  heap w !! n =
    Some (fst (Notification.__init__ title message urgency icon buttons
                 reply_field on_clicked on_dismissed attachment sound thread
                 timeout sound_file)) ->
  identifier_of (heap w) n = "" /\
  snd (clear n reply w) = Ok tt /\
  calls (fst (clear n reply w)) = calls w /\
  index (fst (clear n reply w)) = index w.
Proof.
  intros Hobj.
  assert (Hid : identifier_of (heap w) n = "").
  { unfold identifier_of. rewrite Hobj. destruct sound; reflexivity. }
  split; [exact Hid|].
  assert (Heq : clear n reply w = _clear_notification_from_cache n w).
  { unfold clear, bind, gets. rewrite Hid. reflexivity. }
  rewrite Heq, forget_eq. simpl. unfold forgotten. rewrite Hid.
  destruct w as [h [app lim d idx] lg cs]. repeat split.
Qed.

Lemma clear_of_new_notification_is_local_witness :
  heap unbounded !! B =
    Some (fst (Notification.__init__ "B" "" Normal None [] None None None
                 None false None (-1)%Z None)) /\
  snd (clear B (DismissFailed NotImplementedError) unbounded) = Ok tt /\
  calls (fst (clear B (DismissFailed NotImplementedError) unbounded)) = [].
Proof.
  destruct (clear_of_new_notification_is_local "B" "" Normal None [] None
              None None None false None (-1)%Z None B
              (DismissFailed NotImplementedError) unbounded eq_refl)
    as (_ & Hok & Hcalls & _).
  split; [reflexivity|]. split; [exact Hok | exact Hcalls].
Defined.

(** ** An exception that [send] does not catch *)

(** When the cache of a notifier with a positive limit [N] is full and the
    backend's [_send] raises an exception that is not derived from
    [Exception], [send] raises it to the caller after the eviction and
    without the handler: the oldest notification has left the cache, the
    index is as it was, and nothing is logged. *)
Theorem uncaught_exception_drops_the_oldest h app N w0 ops n e :
  (0 < N)%Z ->
  boot h app (Some N) = Ok w0 ->
  length (current_notifications (run ops w0)) = Z.to_nat N ->
  isinstance_Exception e = false ->
  let w := run ops w0 in
  snd (send n (Failed e) w) = Raise e /\
  current_notifications (fst (send n (Failed e) w)) =
    tail (current_notifications w) /\
  index (fst (send n (Failed e) w)) = index w /\
  log (fst (send n (Failed e) w)) = log w.
Proof.
  intros HN Hboot Hfull He w.
  assert (Hl : limit w = Some N)
    by (unfold w; rewrite run_limit; exact (boot_limit _ _ _ _ Hboot)).
  fold w in Hfull. clearbody w. revert Hl Hfull.
  unfold_ops. open_world w. intros -> Hfull. rewrite He.
  assert (Hz : (Z.of_nat (length its) =? N)%Z = true)
    by (apply Z.eqb_eq; lia).
  rewrite Hz. simpl.
  destruct its as [|x its]; [simpl in Hfull; lia|].
  simpl. repeat split.
Qed.

Lemma uncaught_exception_drops_the_oldest_witness :
  let w := run [Send A (Delivered "a")] one_slot in
  (0 < 1)%Z /\
  boot three None (Some 1%Z) = Ok one_slot /\
  length (current_notifications w) = Z.to_nat 1 /\
  isinstance_Exception CancelledError = false /\
  snd (send B (Failed CancelledError) w) = Raise CancelledError /\
  current_notifications (fst (send B (Failed CancelledError) w)) = [] /\
  index (fst (send B (Failed CancelledError) w)) !! "a" = Some A.
Proof.
  intros w.
  destruct (uncaught_exception_drops_the_oldest three None 1%Z one_slot
              [Send A (Delivered "a")] B CancelledError
              eq_refl eq_refl eq_refl eq_refl) as (Hr & Hcur & Hidx & _).
  split; [lia|]. split; [reflexivity|]. split; [reflexivity|].
  split; [reflexivity|]. split; [exact Hr|].
  split; [exact Hcur | subst w; rewrite Hidx; reflexivity].
Defined.

(** ** The index under [send] *)

Lemma send_never_unindexes_witness :
  let w := run [Send A (Delivered "a")] one_slot in
  is_Some (index w !! "a") /\
  is_Some (index (fst (send B (Delivered "b") w)) !! "a") /\
  current_notifications (fst (send B (Delivered "b") w)) = [B].
Proof.
  intros w.
  assert (Hk : is_Some (index w !! "a")) by (eexists; reflexivity).
  split; [exact Hk|].
  split; [exact (send_never_unindexes B (Delivered "b") w "a" Hk)
         | reflexivity].
Defined.

(** * Runs that record no notification twice *)

Lemma remove_first_sublist x l r :
  deque.remove_first x l = Some r -> r `sublist_of` l.
Proof.
  revert r. induction l as [|y l IH]; intros r; simpl; [discriminate|].
  destruct (decide (y = x)).
  - intros [= <-]. apply sublist_cons. reflexivity.
  - destruct (deque.remove_first x l) as [r'|]; [|discriminate].
    intros [= <-]. apply sublist_skip. apply IH. reflexivity.
Qed.

Lemma NoDup_snoc_fresh (x : nat) l : x ∉ l -> NoDup l -> NoDup (l ++ [x]).
Proof.
  intros Hx Hl. apply NoDup_app. split; [exact Hl|]. split.
  - intros y Hy Hin. apply list_elem_of_singleton in Hin. subst y.
    exact (Hx Hy).
  - apply NoDup_singleton.
Qed.

(** The cache holds no notification twice as long as none is recorded
    twice. *)
Lemma step_NoDup op w :
  double_records op w = false ->
  NoDup (current_notifications w) ->
  NoDup (current_notifications (fst (step op w))).
Proof.
  destruct op as [n [nid|e]|n [|e]|[|e]|n]; simpl; unfold double_records;
    unfold_ops; open_world w; intros Hd Hnd; repeat branch; simplify_eq.
  all: try (apply bool_decide_eq_false in Hd).
  all: repeat match goal with
       | |- NoDup (drop _ _) => eapply sublist_NoDup; [|apply sublist_drop]
       | |- NoDup (take _ _) => eapply sublist_NoDup; [|apply sublist_take]
       | |- NoDup (_ ++ [_]) => apply NoDup_snoc_fresh
       | H : deque.remove_first _ _ = Some ?r |- NoDup ?r =>
           eapply sublist_NoDup; [|exact (remove_first_sublist _ _ _ H)]
       end.
  all: try assumption.
  all: try (apply NoDup_nil; exact I).
  all: try (apply NoDup_cons_1_2 in Hnd; exact Hnd).
  all: intros Hin; apply Hd; apply elem_of_cons; right; exact Hin.
Qed.

Lemma run_NoDup ops w :
  no_double_record ops w = true ->
  NoDup (current_notifications w) ->
  NoDup (current_notifications (run ops w)).
Proof.
  revert w. induction ops as [|op ops IH]; intros w Hrec Hnd; simpl;
    [exact Hnd|].
  simpl in Hrec. apply andb_prop in Hrec as [Hop Hrec].
  apply negb_true_iff in Hop.
  apply IH; [exact Hrec|]. apply step_NoDup; assumption.
Qed.

Lemma reachable_once h app lim w0 ops n :
  boot h app lim = Ok w0 ->
  no_double_record ops w0 = true ->
  count_occ Nat.eq_dec (current_notifications (run ops w0)) n <= 1.
Proof.
  intros Hboot Hrec.
  apply (proj1 (NoDup_count_occ Nat.eq_dec _)). apply NoDup_ListNoDup.
  apply run_NoDup; [exact Hrec|].
  destruct (boot_empty _ _ _ _ Hboot) as [-> _]. apply NoDup_nil. exact I.
Qed.

(** C6: in every run from the constructor that records no notification
    twice, a notification that was sent and delivered (it carries a
    non-empty identifier) and is then passed to [clear], with the backend's
    [_clear] returning, is afterwards absent from [current_notifications]
    and from the identifier index: looking up its identifier finds
    nothing.  Other operations may lie between the [send] and the
    [clear]. *)
Theorem sent_then_cleared_is_gone h app lim w0 ops n :
  boot h app lim = Ok w0 ->
  no_double_record ops w0 = true ->
  identifier_of (heap (run ops w0)) n <> "" ->
  let w := run ops w0 in
  snd (clear n Dismissed w) = Ok tt /\
  calls (fst (clear n Dismissed w)) = calls w ++ [CallClear n] /\
  (n ∉ current_notifications (fst (clear n Dismissed w))) /\
  index (fst (clear n Dismissed w))
    !! identifier_of (heap (fst (clear n Dismissed w))) n = None.
Proof.
  intros Hboot Hrec Hid w.
  destruct (clear_dismissed_effect n w Hid)
    as (w2 & -> & Hcalls & Hc & Hi & Hh).
  simpl. split; [reflexivity|]. split; [exact Hcalls|]. split.
  - rewrite Hc. apply remove_first_gone.
    exact (reachable_once h app lim w0 ops n Hboot Hrec).
  - rewrite Hi, Hh. apply lookup_delete_eq.
Qed.

Lemma sent_then_cleared_is_gone_witness :
  let ops := [Send A (Delivered "a"); Send B (Delivered "b")] in
  let w := run ops unbounded in
  boot three None None = Ok unbounded /\
  no_double_record ops unbounded = true /\
  identifier_of (heap w) A <> "" /\
  current_notifications w = [A; B] /\
  index w !! "a" = Some A /\
  snd (clear A Dismissed w) = Ok tt /\
  (A ∉ current_notifications (fst (clear A Dismissed w))) /\
  index (fst (clear A Dismissed w)) !! "a" = None.
Proof.
  intros ops w.
  assert (Hid : identifier_of (heap w) A <> "") by discriminate.
  destruct (sent_then_cleared_is_gone three None None unbounded ops A
              eq_refl eq_refl Hid) as (Hok & _ & Hgone & Hidx).
  split; [reflexivity|]. split; [reflexivity|]. split; [exact Hid|].
  split; [reflexivity|]. split; [reflexivity|].
  split; [exact Hok|]. split; [exact Hgone | exact Hidx].
Defined.

(** C8: [_clear_notification_from_cache] never raises, in any state.  In
    every run from the constructor that records no notification twice,
    applying it twice to any notification leaves the notifier (ordered
    cache, identifier index and all the rest) in the same state as
    applying it once, and applying it to a notification that was never
    recorded (its identifier was empty when the notifier was constructed
    and no [send] of it was delivered) leaves the notifier unchanged. *)
Theorem forget_is_idempotent h app lim w0 ops :
  (forall n w, snd (_clear_notification_from_cache n w) = Ok tt) /\
  (boot h app lim = Ok w0 ->
   no_double_record ops w0 = true ->
   (forall n,
      fst (_clear_notification_from_cache n
             (fst (_clear_notification_from_cache n (run ops w0)))) =
      fst (_clear_notification_from_cache n (run ops w0))) /\
   (forall m,
      identifier_of h m = "" ->
      never_delivered m ops = true ->
      _clear_notification_from_cache m (run ops w0) = (run ops w0, Ok tt))).
Proof.
  split.
  - intros n w. rewrite forget_eq. reflexivity.
  - intros Hboot Hrec. split.
    + intros n. rewrite !forget_eq. simpl. apply forgotten_twice.
      exact (reachable_once h app lim w0 ops n Hboot Hrec).
    + intros m Hid Hnd.
      destruct (boot_empty _ _ _ _ Hboot) as [Hempty Hheap].
      assert (Hout : m ∉ current_notifications w0)
        by (rewrite Hempty; apply not_elem_of_nil).
      destruct (run_keeps_stranger m ops w0 Hnd Hout) as [Hgone Hsame].
      rewrite forget_eq. f_equal. apply forgotten_stranger; [exact Hgone|].
      rewrite Hsame, Hheap. exact Hid.
Qed.

Lemma forget_is_idempotent_witness :
  let ops := [Send A (Delivered "a"); Send C (Delivered "c")] in
  let w := run ops unbounded in
  boot three None None = Ok unbounded /\
  no_double_record ops unbounded = true /\
  identifier_of three B = "" /\
  never_delivered B ops = true /\
  current_notifications (fst (_clear_notification_from_cache A w)) = [C] /\
  fst (_clear_notification_from_cache A
         (fst (_clear_notification_from_cache A w))) =
    fst (_clear_notification_from_cache A w) /\
  snd (_clear_notification_from_cache A
         (fst (_clear_notification_from_cache A w))) = Ok tt /\
  _clear_notification_from_cache B w = (w, Ok tt).
Proof.
  intros ops w.
  destruct (forget_is_idempotent three None None unbounded ops)
    as [Hnever Hrun].
  destruct (Hrun eq_refl eq_refl) as [Htwice Hstranger].
  split; [reflexivity|]. split; [reflexivity|]. split; [reflexivity|].
  split; [reflexivity|]. split; [reflexivity|].
  split; [exact (Htwice A)|]. split; [apply Hnever|].
  exact (Hstranger B eq_refl eq_refl).
Defined.
